(** * UniswapX parameterization API: quote dispatch and selection

    A shallow embedding of
    - [S3CircuitBreakerConfigurationProvider] (the admission cache and its
      write path),
    - [WebhookQuoter] (eligibility, dispatch, response classification),
    - [getBestQuote] (the reduction in the quote handler),
    followed by the properties established about them.

    Conventions.  A JavaScript [number] holding an integer (timestamps,
    HTTP status, chain id, milliseconds) is a [Z]; a fade rate is a binary64
    [float]; an ethers [BigNumber] is a [Z]; [Map] and [Set] keyed by
    strings are [gmap] and [gset]; an insertion-ordered [Map] that is only
    iterated is an association list; an awaited promise, or a call that may
    throw, is a [Settled] value. *)

From Stdlib Require Import ZArith PrimFloat.
From stdpp Require Import gmap strings list.

Local Open Scope Z_scope.

(* ===================================================================== *)
(** ** Exceptions, promises and effects *)
(* ===================================================================== *)

(** What a [catch (e)] clause may receive.  [AxiosError] carries the fields
    the code inspects ([e.code], [e.response?.status]). *)
Inductive Error : Type :=
  | AxiosError (code : option string) (responseStatus : option Z)
  | OtherError (message : string).

(** The result of awaiting a promise, or of a call that may throw. *)
Inductive Settled (A : Type) : Type :=
  | Fulfilled (value : A)
  | Rejected (reason : Error).
Arguments Fulfilled {A} value.
Arguments Rejected {A} reason.

(** Code running against a mutable state [S] (fields of [this], or the
    trace of emitted side effects).  A throw hands back the state as it was
    when the exception left the code, so what survives a failure is a
    property to prove and not a consequence of the type. *)
Definition Exec (S A : Type) : Type := S -> Settled A * S.

Definition ret {S A} (a : A) : Exec S A := fun s => (Fulfilled a, s).

Definition throw {S A} (e : Error) : Exec S A := fun s => (Rejected e, s).

Definition bind {S A B} (m : Exec S A) (k : A -> Exec S B) : Exec S B :=
  fun s =>
    match m s with
    | (Fulfilled a, s') => k a s'
    | (Rejected e, s') => (Rejected e, s')
    end.

(** [await p] for a promise whose settlement is known. *)
Definition await {S A} (p : Settled A) : Exec S A := fun s => (p, s).

Definition get {S} : Exec S S := fun s => (Fulfilled s, s).

Definition modify {S} (f : S -> S) : Exec S unit := fun s => (Fulfilled tt, f s).

(** [try { body } catch (e) { handler e }] *)
Definition try_catch {S A} (body : Exec S A) (handler : Error -> Exec S A) : Exec S A :=
  fun s =>
    match body s with
    | (Fulfilled a, s') => (Fulfilled a, s')
    | (Rejected e, s') => handler e s'
    end.

Notation "'let*' x ':=' m 'in' k" := (bind m (fun x => k))
  (at level 10, x name, m at level 100, k at level 200).

(** [Promise.all(xs.map(f))] for calls that catch their own exceptions: the
    results come in the order of [xs], and the effects of the concurrent
    calls are recorded call by call. *)
Fixpoint mapM {S A B} (f : A -> Exec S B) (xs : list A) : Exec S (list B) :=
  match xs with
  | [] => ret []
  | x :: xs' => let* y := f x in let* ys := mapM f xs' in ret (y :: ys)
  end.

(** [checkDefined(value, message)] of the preconditions module: throws when
    the value is undefined. *)
Definition checkDefined {S A} (value : option A) (message : string) : Exec S A :=
  match value with
  | Some a => ret a
  | None => throw (OtherError message)
  end.

(* ===================================================================== *)
(** ** Circuit-breaker configuration and its S3 provider *)
(* ===================================================================== *)

(** One admission record.  [putConfigurations] writes [name], [fadeRate]
    and [enabled]; [WebhookQuoter] reads [hash] and [enabled].  A property
    that an object does not carry is [None]. *)
Module CircuitBreakerConfiguration.
Record t : Type := mk {
  name : option string;
  hash : option string;
  fadeRate : float;
  enabled : bool;
}.
End CircuitBreakerConfiguration.

(** [JSON.stringify] and [JSON.parse] at the type of configuration
    documents.  Both are library functions; nothing is assumed about them. *)
Class JSON : Type := {
  JSON_stringify : list CircuitBreakerConfiguration.t -> string;
  JSON_parse : string -> Settled (list CircuitBreakerConfiguration.t);
}.

(** The object store as the provider sees it: a map from (bucket, key) to a
    body, replaced as a whole by a put.  [Fault] says which step of a
    request goes wrong, if any; it belongs to the request made on this
    value, and a later request that fares otherwise is a request on a value
    with the same objects and its own fault. *)
Module S3.
Inductive Fault : Type :=
  | NoFault
  | SendFails (e : Error)
  | BodyUndefined
  | TransformFails (e : Error).

Record Client : Type := mkClient {
  objects : gmap (string * string) string;
  fault : Fault;
}.

(** [Body.transformToString()] is a promise of the text. *)
Record GetObjectOutput : Type := mkOutput {
  Body : option (Settled string);
}.

Definition NoSuchKey : Error := OtherError "NoSuchKey".

(** [client.send(new GetObjectCommand({Bucket, Key}))] *)
Definition sendGetObject (c : Client) (Bucket Key : string) : Settled GetObjectOutput :=
  match fault c with
  | SendFails e => Rejected e
  | f =>
      match objects c !! (Bucket, Key) with
      | None => Rejected NoSuchKey
      | Some text =>
          Fulfilled
            (mkOutput
               match f with
               | BodyUndefined => None
               | TransformFails e => Some (Rejected e)
               | _ => Some (Fulfilled text)
               end)
      end
  end.

(** [client.send(new PutObjectCommand({Bucket, Key, Body}))] *)
Definition sendPutObject (c : Client) (Bucket Key Body : string) : Settled unit * Client :=
  match fault c with
  | SendFails e => (Rejected e, c)
  | _ => (Fulfilled tt, mkClient (<[(Bucket, Key) := Body]> (objects c)) (fault c))
  end.
End S3.

Module S3CircuitBreakerConfigurationProvider.
Import CircuitBreakerConfiguration.

Record t : Type := mk {
  fillers : list CircuitBreakerConfiguration.t;
  lastUpdatedTimestamp : Z;
  bucket : string;
  key : string;
}.

(** try to refetch endpoints every 5 mins *)
Definition UPDATE_PERIOD_MS : Z := 5 * 60000.
(** The double nearest to 0.4. *)
Definition FILL_RATE_THRESHOLD : float := 0x1.999999999999ap-2%float.

Definition constructor (now : Z) (bucket key : string) : t :=
  mk [] now bucket key.

Definition set_fillers (v : list CircuitBreakerConfiguration.t) : Exec t unit :=
  modify (fun this => mk v (lastUpdatedTimestamp this) (bucket this) (key this)).

Definition set_lastUpdatedTimestamp (v : Z) : Exec t unit :=
  modify (fun this => mk (fillers this) v (bucket this) (key this)).

Definition fetchConfigurations {codec : JSON} (client : S3.Client) : Exec t unit :=
  let* this := get in
  let* s3Res := await (S3.sendGetObject client (bucket this) (key this)) in
  let* s3Body := checkDefined (S3.Body s3Res) "s3Res.Body is undefined" in
  let* text := await s3Body in
  let* parsed := await (JSON_parse text) in
  (* the info log that follows the assignment is not part of the state *)
  set_fillers parsed.

(** [now] is what [Date.now()] returns in the staleness test, [now'] what
    it returns after the refetch. *)
Definition getConfigurations {codec : JSON} (client : S3.Client) (now now' : Z)
  : Exec t (list CircuitBreakerConfiguration.t) :=
  let* this := get in
  let* _ :=
    if bool_decide (length (fillers this) = 0%nat)
       || bool_decide (now - lastUpdatedTimestamp this > UPDATE_PERIOD_MS)
    then let* _ := fetchConfigurations client in set_lastUpdatedTimestamp now'
    else ret tt
  in
  let* this' := get in
  ret (fillers this').

(** The object literal pushed for one entry; enabled endpoints will be able
    to participate in RFQ. *)
Definition recordOf (filler : string) (rate : float) : CircuitBreakerConfiguration.t :=
  CircuitBreakerConfiguration.mk (Some filler) None rate
    (PrimFloat.ltb rate FILL_RATE_THRESHOLD).

(** The loop [for (const [filler, rate] of fillRates) config.push({...})]. *)
Definition buildConfig (fillRates : list (string * float)) : list CircuitBreakerConfiguration.t :=
  fold_left (fun config '(filler, rate) => config ++ [recordOf filler rate]) fillRates [].

(** [fillRates] is the [Map] in iteration order.  The method touches no
    field of [this]; what it changes is the store. *)
Definition putConfigurations {codec : JSON} (this : t) (fillRates : list (string * float))
  : Exec S3.Client unit :=
  let config := buildConfig fillRates in
  fun client => S3.sendPutObject client (bucket this) (key this) (JSON_stringify config).
End S3CircuitBreakerConfigurationProvider.

(* ===================================================================== *)
(** ** Entities *)
(* ===================================================================== *)

Inductive TradeType : Type := EXACT_INPUT | EXACT_OUTPUT.

Module QuoteRequest.
Record t : Type := mk {
  requestId : string;
  tokenInChainId : Z;
  swapper : string;
  tokenIn : string;
  tokenOut : string;
  amount : Z;
  type : TradeType;
}.
End QuoteRequest.

Module QuoteResponse.
Record t : Type := mk {
  requestId : string;
  swapper : string;
  tokenIn : string;
  tokenOut : string;
  amountIn : Z;
  amountOut : Z;
}.
End QuoteResponse.

(** The Joi validation result: [error] is defined when validation failed. *)
Record ValidationResult : Type := mkValidation {
  error : option string;
}.

Record ResponseWithValidation : Type := mkResponseWithValidation {
  response : QuoteResponse.t;
  validation : ValidationResult;
}.

(** What [fetchQuote] uses of the entities module, over the type [Data] of
    response bodies: [QuoteResponse.fromRFQ] and
    [QuoteRequest.toOpposingRequest].  Both are taken as total functions. *)
Class Entities (Data : Type) : Type := {
  fromRFQ : QuoteRequest.t -> Data -> TradeType -> ResponseWithValidation;
  toOpposingRequest : QuoteRequest.t -> QuoteRequest.t;
}.

Module WebhookOverrides.
Record t : Type := mk {
  timeout : option Z;
}.
End WebhookOverrides.

Module WebhookConfiguration.
Record t : Type := mk {
  name : string;
  hash : string;
  endpoint : string;
  headers : option (list (string * string));
  overrides : option WebhookOverrides.t;
  chainIds : option (list Z);
}.
End WebhookConfiguration.

(** What the three providers resolve to when the quoter awaits them. *)
Record Providers : Type := mkProviders {
  getEndpoints : Settled (list WebhookConfiguration.t);
  getConfigurations : Settled (list CircuitBreakerConfiguration.t);
  getEndpointToExcludedAddrsMap : Settled (gmap string (gset string));
}.

(* ===================================================================== *)
(** ** Observable side effects of the quoter *)
(* ===================================================================== *)

Inductive Metric : Type :=
  | RFQ_REQUESTED
  | RFQ_RESPONSE_TIME
  | RFQ_NON_QUOTE
  | RFQ_FAIL_VALIDATION
  | RFQ_FAIL_REQUEST_MATCH
  | RFQ_SUCCESS
  | RFQ_FAIL_ERROR.

(** The [responseType] of a [WEBHOOK_RESPONSE] analytics event. *)
Inductive ResponseType : Type :=
  | NO_QUOTE
  | VALIDATION_ERROR
  | REQUEST_ID_MISMATCH
  | OK
  | TIMEOUT
  | HTTP_ERROR
  | OTHER_ERROR.

(** Which of the two bodies a post carries: [cleanRequest] or
    [opposingCleanRequest]. *)
Inductive Side : Type := Primary | Opposing.

Record AxiosConfig : Type := mkAxiosConfig {
  timeout : Z;
  headers : option (list (string * string));
}.

Inductive Event : Type :=
  | LogCircuitBreakerConfigUsed (config : list CircuitBreakerConfiguration.t)
  | LogEndpointEnabled (e : WebhookConfiguration.t)
  | LogErrorGettingEligibleEndpoints (e : Error)
  | LogFetchingQuotes (endpoints : list WebhookConfiguration.t)
  | LogChainIdNotConfigured (endpoint : string)
  | LogWebhookRequest (endpoint : string) (body : Side)
  | LogOpposingQuoteResponse (body : QuoteResponse.t)
  | PutMetric (m : Metric) (context : option string)
  | AxiosPost (url : string) (body : Side) (config : AxiosConfig)
  | SendAnalyticsEvent (name endpoint : string) (timeoutSettingMs : Z)
      (status : option Z) (responseType : ResponseType).

Definition Trace : Type := list Event.

Definition emit (ev : Event) : Exec Trace unit := modify (fun tr => tr ++ [ev]).

(* ===================================================================== *)
(** ** The HTTP client *)
(* ===================================================================== *)

Record AxiosResponse (Data : Type) : Type := mkAxiosResponse {
  status : Z;
  data : Data;
}.
Arguments mkAxiosResponse {Data} status data.
Arguments status {Data} _.
Arguments data {Data} _.

(** How one [axios.post] settles, and after how many milliseconds.  The
    client is a library: when it fulfils and when it rejects is taken as
    given here. *)
Record Reply (Data : Type) : Type := mkReply {
  settledAfterMs : Z;
  result : Settled (AxiosResponse Data);
}.
Arguments mkReply {Data} settledAfterMs result.
Arguments settledAfterMs {Data} _.
Arguments result {Data} _.

(** The endpoints' behaviour: the reply to a post, by URL and body. *)
Definition Network (Data : Type) : Type := string -> Side -> Reply Data.

(** [Promise.all([p, q])]: fulfilled with both values when both fulfil,
    rejected with the reason of the promise that rejects first (the first
    of the array when both reject at the same instant). *)
Definition Promise_all2 {Data} (p q : Reply Data)
  : Settled (AxiosResponse Data * AxiosResponse Data) :=
  match result p, result q with
  | Fulfilled a, Fulfilled b => Fulfilled (a, b)
  | Rejected e, Fulfilled _ => Rejected e
  | Fulfilled _, Rejected e => Rejected e
  | Rejected e1, Rejected e2 =>
      if settledAfterMs q <? settledAfterMs p then Rejected e2 else Rejected e1
  end.

(** JavaScript truthiness of an optional integer: [undefined] and [0] are
    falsy. *)
Definition truthy (v : option Z) : bool :=
  match v with
  | Some n => negb (n =? 0)
  | None => false
  end.

(** [Number(v)] where [v] is known to be truthy. *)
Definition Number (v : option Z) : Z := default 0 v.

(* ===================================================================== *)
(** ** WebhookQuoter *)
(* ===================================================================== *)

(** [new Map(entries)]: entries are inserted in order, a later entry
    replacing an earlier one with the same key. *)
Definition Map_new `{Countable K} {V} (entries : list (K * V)) : gmap K V :=
  fold_left (fun m kv => <[kv.1 := kv.2]> m) entries ∅.

Module WebhookQuoter.

Definition WEBHOOK_TIMEOUT_MS : Z := 500.

Record t : Type := mk {
  ALLOW_LIST : gset string;
}.

Definition DEFAULT_ALLOW_LIST : gset string :=
  {[ "9de8f2376fef4be567f2e242fce750cca347b71853816cbc64f70d568de41ef1";
     "7b8d5830b35a2a2aa9b5581f8b87f6082335daacd1013fbbb05d690f3c4eae6d" ]}.

Definition constructor (_allow_list : option (gset string)) : t :=
  mk (default DEFAULT_ALLOW_LIST _allow_list).

(** The condition of the [forEach] body in [getEligibleEndpoints]. *)
Definition isEnabled (this : t)
    (fillerToConfigMap : gmap (option string) CircuitBreakerConfiguration.t)
    (e : WebhookConfiguration.t) : bool :=
  let h := Some (WebhookConfiguration.hash e) in
  bool_decide (WebhookConfiguration.hash e ∈ ALLOW_LIST this)
  || (bool_decide (is_Some (fillerToConfigMap !! h))
      && from_option CircuitBreakerConfiguration.enabled false (fillerToConfigMap !! h))
  || negb (bool_decide (is_Some (fillerToConfigMap !! h))).

(** [endpoints.forEach((e) => { if (...) { log; enabledEndpoints.push(e) } })] *)
Fixpoint forEachEnabled (this : t)
    (fillerToConfigMap : gmap (option string) CircuitBreakerConfiguration.t)
    (endpoints enabledEndpoints : list WebhookConfiguration.t)
  : Exec Trace (list WebhookConfiguration.t) :=
  match endpoints with
  | [] => ret enabledEndpoints
  | e :: rest =>
      if isEnabled this fillerToConfigMap e
      then let* _ := emit (LogEndpointEnabled e) in
           forEachEnabled this fillerToConfigMap rest (enabledEndpoints ++ [e])
      else forEachEnabled this fillerToConfigMap rest enabledEndpoints
  end.

(** The configuration is an array, hence truthy: the [if (config)] of the
    source always takes its first branch, and a [null] configuration
    makes [config.map] throw inside the [try]. *)
Definition getEligibleEndpoints (this : t) (providers : Providers)
  : Exec Trace (list WebhookConfiguration.t) :=
  let* endpoints := await (getEndpoints providers) in
  try_catch
    (let* config := await (getConfigurations providers) in
     let fillerToConfigMap :=
       Map_new (map (fun c => (CircuitBreakerConfiguration.hash c, c)) config) in
     let* _ := emit (LogCircuitBreakerConfigUsed config) in
     forEachEnabled this fillerToConfigMap endpoints [])
    (fun e =>
       let* _ := emit (LogErrorGettingEligibleEndpoints e) in
       ret endpoints).

Definition axiosConfigOf (config : WebhookConfiguration.t) : AxiosConfig :=
  let timeoutOverride :=
    match WebhookConfiguration.overrides config with
    | Some o => WebhookOverrides.timeout o
    | None => None
    end in
  mkAxiosConfig
    (if truthy timeoutOverride then Number timeoutOverride else WEBHOOK_TIMEOUT_MS)
    (WebhookConfiguration.headers config).

Section Dispatch.
Context {Data : Type} {entities : Entities Data}.

(** returns true if the given hook response is an explicit non-quote:
    a 404, or a 0 amount quote *)
Definition isNonQuote (request : QuoteRequest.t) (hookResponse : AxiosResponse Data)
    (parsedResponse : QuoteResponse.t) : bool :=
  if status hookResponse =? 404 then true
  else
    let quote :=
      match QuoteRequest.type request with
      | EXACT_INPUT => QuoteResponse.amountOut parsedResponse
      | EXACT_OUTPUT => QuoteResponse.amountIn parsedResponse
      end in
    if quote =? 0 then true else false.

Definition axios_post (net : Network Data) (url : string) (body : Side)
    (config : AxiosConfig) : Exec Trace (Reply Data) :=
  let* _ := emit (AxiosPost url body config) in
  ret (net url body).

(** The [catch] of [fetchQuote]. *)
Definition onError (name endpoint : string) (timeoutSettingMs : Z) (e : Error)
  : Exec Trace (option QuoteResponse.t) :=
  let* _ := emit (PutMetric RFQ_FAIL_ERROR None) in
  let* _ := emit (PutMetric RFQ_FAIL_ERROR (Some name)) in
  let* _ :=
    match e with
    | AxiosError code responseStatus =>
        let axiosResponseType :=
          if bool_decide (code = Some "ECONNABORTED") then TIMEOUT else HTTP_ERROR in
        emit (SendAnalyticsEvent name endpoint timeoutSettingMs responseStatus axiosResponseType)
    | OtherError _ =>
        emit (SendAnalyticsEvent name endpoint timeoutSettingMs None OTHER_ERROR)
    end in
  ret None.

Definition fetchQuote (config : WebhookConfiguration.t) (request : QuoteRequest.t)
    (net : Network Data) : Exec Trace (option QuoteResponse.t) :=
  let name := WebhookConfiguration.name config in
  let endpoint := WebhookConfiguration.endpoint config in
  if match WebhookConfiguration.chainIds config with
     | Some ids => negb (bool_decide (QuoteRequest.tokenInChainId request ∈ ids))
     | None => false
     end
  then
    let* _ := emit (LogChainIdNotConfigured endpoint) in
    ret None
  else
    let* _ := emit (PutMetric RFQ_REQUESTED None) in
    let* _ := emit (PutMetric RFQ_REQUESTED (Some name)) in
    let* _ := emit (LogWebhookRequest endpoint Primary) in
    let* _ := emit (LogWebhookRequest endpoint Opposing) in
    let axiosConfig := axiosConfigOf config in
    let report (st : Z) (rt : ResponseType) :=
      emit (SendAnalyticsEvent name endpoint (timeout axiosConfig) (Some st) rt) in
    try_catch
      (let* p := axios_post net endpoint Primary axiosConfig in
       let* q := axios_post net endpoint Opposing axiosConfig in
       let* both := await (Promise_all2 p q) in
       let '(hookResponse, opposite) := both in
       let* _ := emit (PutMetric RFQ_RESPONSE_TIME None) in
       let* _ := emit (PutMetric RFQ_RESPONSE_TIME (Some name)) in
       let parsed := fromRFQ request (data hookResponse) (QuoteRequest.type request) in
       let quoteResponse := response parsed in
       let validationResult := validation parsed in
       (* RFQ provider explicitly elected not to quote *)
       if isNonQuote request hookResponse quoteResponse then
         let* _ := emit (PutMetric RFQ_NON_QUOTE None) in
         let* _ := emit (PutMetric RFQ_NON_QUOTE (Some name)) in
         let* _ := report (status hookResponse) NO_QUOTE in
         ret None
       (* RFQ provider response failed validation *)
       else if bool_decide (is_Some (error validationResult)) then
         let* _ := emit (PutMetric RFQ_FAIL_VALIDATION None) in
         let* _ := emit (PutMetric RFQ_FAIL_VALIDATION (Some name)) in
         let* _ := report (status hookResponse) VALIDATION_ERROR in
         ret None
       else if negb (bool_decide (QuoteResponse.requestId quoteResponse
                                  = QuoteRequest.requestId request)) then
         let* _ := emit (PutMetric RFQ_FAIL_REQUEST_MATCH None) in
         let* _ := emit (PutMetric RFQ_FAIL_REQUEST_MATCH (Some name)) in
         let* _ := report (status hookResponse) REQUEST_ID_MISMATCH in
         ret None
       else
         let* _ := emit (PutMetric RFQ_SUCCESS None) in
         let* _ := emit (PutMetric RFQ_SUCCESS (Some name)) in
         let* _ := report (status hookResponse) OK in
         (* iff valid quote, log the opposing side as well *)
         let opposingRequest := toOpposingRequest request in
         let opposingResponse :=
           fromRFQ opposingRequest (data opposite) (QuoteRequest.type opposingRequest) in
         let* _ :=
           if negb (isNonQuote opposingRequest opposite (response opposingResponse))
              && negb (bool_decide (is_Some (error (validation opposingResponse))))
           then emit (LogOpposingQuoteResponse (response opposingResponse))
           else ret tt in
         ret (Some quoteResponse))
      (onError name endpoint (timeout axiosConfig)).

(** The predicate handed to [endpoints.filter] in [quote]. *)
Definition notExcluded (endpointToAddrsMap : gmap string (gset string))
    (request : QuoteRequest.t) (e : WebhookConfiguration.t) : bool :=
  bool_decide (endpointToAddrsMap !! WebhookConfiguration.endpoint e = None)
  || negb (from_option
             (fun addrs => bool_decide (QuoteRequest.swapper request ∈ addrs))
             false
             (endpointToAddrsMap !! WebhookConfiguration.endpoint e)).

(** [endpoints.filter(...)] builds a new array and leaves [endpoints] as
    it is; the source drops the new array.  The events of the
    concurrent [fetchQuote] calls are recorded endpoint by endpoint. *)
Definition quote (this : t) (providers : Providers) (net : Network Data)
    (request : QuoteRequest.t) : Exec Trace (list QuoteResponse.t) :=
  let* endpoints := getEligibleEndpoints this providers in
  let* endpointToAddrsMap := await (getEndpointToExcludedAddrsMap providers) in
  let _filtered := List.filter (notExcluded endpointToAddrsMap request) endpoints in
  let* _ := emit (LogFetchingQuotes endpoints) in
  let* quotes := mapM (fun e => fetchQuote e request net) endpoints in
  ret (omap id quotes).
End Dispatch.
End WebhookQuoter.

(* ===================================================================== *)
(** ** The quote handler: best-quote selection *)
(* ===================================================================== *)

(** [Promise.all(ps)]: the values in the order of [ps] when all fulfil,
    otherwise a rejection (the leftmost one here). *)
Fixpoint Promise_all {A} (ps : list (Settled A)) : Settled (list A) :=
  match ps with
  | [] => Fulfilled []
  | Fulfilled a :: rest =>
      match Promise_all rest with
      | Fulfilled l => Fulfilled (a :: l)
      | Rejected e => Rejected e
      end
  | Rejected e :: _ => Rejected e
  end.

Module QuoteHandler.

(** A quoter as the handler types it: awaiting [q.quote(request)] gives a
    [QuoteResponse]. *)
Definition Quoter : Type := QuoteRequest.t -> Settled QuoteResponse.t.

(** The callback of [responses.reduce(..., null)]. *)
Definition better (bestQuote : option QuoteResponse.t) (quote : QuoteResponse.t)
  : option QuoteResponse.t :=
  match bestQuote with
  | None => Some quote
  | Some best =>
      if QuoteResponse.amountOut quote >? QuoteResponse.amountOut best
      then Some quote
      else Some best
  end.

(** fetch quotes from all quoters and return the best one *)
Definition getBestQuote (quoters : list Quoter) (quoteRequest : QuoteRequest.t)
  : Settled (option QuoteResponse.t) :=
  match Promise_all (map (fun q => q quoteRequest) quoters) with
  | Fulfilled responses => Fulfilled (fold_left better responses None)
  | Rejected e => Rejected e
  end.
End QuoteHandler.

(** What [handleRequest] uses of the entities module, over the types of
    request and response bodies: [QuoteRequest.fromRequestBody] and
    [QuoteResponse.toResponse]. *)
Class HandlerEntities (RequestBody ResponseBody : Type) : Type := {
  fromRequestBody : RequestBody -> QuoteRequest.t;
  toResponse : QuoteResponse.t -> ResponseBody;
}.

(** The two [log.info] lines of [handleRequest].  The request of the handler
    carries its amount as [amountIn]. *)
Inductive HandlerLog : Type :=
  | LogQuoted (requestId : string) (amountOut : Z)
  | LogQuoteRequest (requestId tokenIn tokenOut : string) (amountIn : Z).

(** [ErrorResponse | Response<PostQuoteResponse>] *)
Inductive HandlerResult (ResponseBody : Type) : Type :=
  | ErrorResponse (statusCode : Z) (detail errorCode : string)
  | Response (statusCode : Z) (body : ResponseBody).
Arguments ErrorResponse {ResponseBody} statusCode detail errorCode.
Arguments Response {ResponseBody} statusCode body.

Definition handleRequest {RequestBody ResponseBody : Type}
    {handlerEntities : HandlerEntities RequestBody ResponseBody}
    (quoters : list QuoteHandler.Quoter) (requestBody : RequestBody)
  : Exec (list HandlerLog) (HandlerResult ResponseBody) :=
  let request := fromRequestBody requestBody in
  let* bestQuote := await (QuoteHandler.getBestQuote quoters request) in
  match bestQuote with
  | None => ret (ErrorResponse 400 "No quotes available" "QUOTE_ERROR")
  | Some bestQuote =>
      let* _ := modify (fun log =>
                  log ++ [LogQuoted (QuoteRequest.requestId request)
                            (QuoteResponse.amountOut bestQuote)]) in
      let* _ := modify (fun log =>
                  log ++ [LogQuoteRequest (QuoteRequest.requestId request)
                            (QuoteRequest.tokenIn request) (QuoteRequest.tokenOut request)
                            (QuoteRequest.amount request)]) in
      ret (Response 200 (toResponse bestQuote))
  end.

(* ===================================================================== *)
(** ** Reading a trace *)
(* ===================================================================== *)

(** The classifications reported to analytics, in order. *)
Definition responseTypes (tr : Trace) : list ResponseType :=
  omap (fun ev => match ev with
                  | SendAnalyticsEvent _ _ _ _ rt => Some rt
                  | _ => None
                  end) tr.

(** The posts issued, in order: URL, body and timeout. *)
Definition posts (tr : Trace) : list (string * Side * Z) :=
  omap (fun ev => match ev with
                  | AxiosPost url body config => Some (url, body, timeout config)
                  | _ => None
                  end) tr.

(** The opposing-side quotes that were logged, in order. *)
Definition opposingLogs (tr : Trace) : list QuoteResponse.t :=
  omap (fun ev => match ev with
                  | LogOpposingQuoteResponse body => Some body
                  | _ => None
                  end) tr.

(** The metrics that were put, in order. *)
Definition metrics (tr : Trace) : list (Metric * option string) :=
  omap (fun ev => match ev with
                  | PutMetric m context => Some (m, context)
                  | _ => None
                  end) tr.

(** The chain-id gate as a test: the endpoint lists no chains, or lists the
    request's. *)
Definition chainConfigured (request : QuoteRequest.t) (config : WebhookConfiguration.t) : bool :=
  match WebhookConfiguration.chainIds config with
  | Some ids => bool_decide (QuoteRequest.tokenInChainId request ∈ ids)
  | None => true
  end.

(** One endpoint dispatched on its own, from an empty trace: what it
    answers and what it emits. *)
Definition answerAlone {Data : Type} {entities : Entities Data}
    (request : QuoteRequest.t) (net : Network Data) (config : WebhookConfiguration.t)
  : option QuoteResponse.t :=
  match (WebhookQuoter.fetchQuote config request net []).1 with
  | Fulfilled answer => answer
  | Rejected _ => None
  end.

Definition eventsAlone {Data : Type} {entities : Entities Data}
    (request : QuoteRequest.t) (net : Network Data) (config : WebhookConfiguration.t)
  : Trace :=
  (WebhookQuoter.fetchQuote config request net []).2.

(** The two posts an endpoint receives when it is dispatched. *)
Definition postsTo (config : WebhookConfiguration.t) : list (string * Side * Z) :=
  [(WebhookConfiguration.endpoint config, Primary, timeout (WebhookQuoter.axiosConfigOf config));
   (WebhookConfiguration.endpoint config, Opposing, timeout (WebhookQuoter.axiosConfigOf config))].

(** The chain-id gate at the head of [fetchQuote] lets the request through. *)
Definition chainAccepted (config : WebhookConfiguration.t) (request : QuoteRequest.t) : Prop :=
  forall ids, WebhookConfiguration.chainIds config = Some ids ->
              QuoteRequest.tokenInChainId request ∈ ids.

(* ===================================================================== *)
(** ** Concrete instances used by the examples *)
(* ===================================================================== *)

Module Scenario.

(** A response body as an endpoint sends it. *)
Record RfqBody : Type := mkBody {
  requestId : string;
  tokenIn : string;
  tokenOut : string;
  amountIn : Z;
  amountOut : Z;
}.

(** Modelled from the spec: [QuoteResponse.fromRFQ] and
    [QuoteRequest.toOpposingRequest] belong to the entities module, which
    is not among the sources.  Section 6 has the body parse into a quote
    with requestId, amountIn, amountOut and swapper; section 3 has the
    opposing variant keep the parties and flip the direction.  The
    validation chosen here checks that the quoted tokens are the
    requested ones. *)
#[global] Instance entities : Entities RfqBody := {|
  fromRFQ request body _ :=
    mkResponseWithValidation
      (QuoteResponse.mk (requestId body) (QuoteRequest.swapper request)
         (tokenIn body) (tokenOut body) (amountIn body) (amountOut body))
      (mkValidation
         (if bool_decide (tokenIn body = QuoteRequest.tokenIn request
                          ∧ tokenOut body = QuoteRequest.tokenOut request)
          then None else Some "quoted tokens do not match the request"));
  toOpposingRequest request :=
    QuoteRequest.mk (QuoteRequest.requestId request)
      (QuoteRequest.tokenInChainId request) (QuoteRequest.swapper request)
      (QuoteRequest.tokenIn request) (QuoteRequest.tokenOut request)
      (QuoteRequest.amount request)
      match QuoteRequest.type request with
      | EXACT_INPUT => EXACT_OUTPUT
      | EXACT_OUTPUT => EXACT_INPUT
      end;
|}.

(** A codec that is enough for the examples: it prints the names with
    their enabled flag and reads back the empty array only. *)
#[global] Instance json : JSON := {|
  JSON_stringify config :=
    String.concat ","
      (map (fun c =>
              default "" (CircuitBreakerConfiguration.name c)
              +:+ (if CircuitBreakerConfiguration.enabled c then ":on" else ":off"))
         config);
  JSON_parse text :=
    if bool_decide (text = "[]") then Fulfilled []
    else Rejected (OtherError "SyntaxError");
|}.

Definition request : QuoteRequest.t :=
  QuoteRequest.mk "req-1" 1 "0xswapper" "USDC" "WETH" 1000 EXACT_INPUT.

Definition fillerA : WebhookConfiguration.t :=
  WebhookConfiguration.mk "A" "hashA" "https://a.example/rfq" None None None.

Definition fillerB : WebhookConfiguration.t :=
  WebhookConfiguration.mk "B" "hashB" "https://b.example/rfq" None
    (Some (WebhookOverrides.mk (Some 0))) (Some [1; 137]).

Definition quoteBody (id : string) (out : Z) : RfqBody :=
  mkBody id "USDC" "WETH" 1000 out.

Definition ok200 (body : RfqBody) : Reply RfqBody :=
  mkReply 20 (Fulfilled (mkAxiosResponse 200 body)).

Definition timedOut : Reply RfqBody :=
  mkReply 500 (Rejected (AxiosError (Some "ECONNABORTED") None)).

(** Every endpoint answers both posts with a quote of 150. *)
Definition allQuote : Network RfqBody :=
  fun _ _ => ok200 (quoteBody "req-1" 150).

(** As [allQuote], but the opposing-side probe times out. *)
Definition probeTimesOut : Network RfqBody :=
  fun _ side =>
    match side with
    | Primary => ok200 (quoteBody "req-1" 150)
    | Opposing => timedOut
    end.

Definition quoter : WebhookQuoter.t := WebhookQuoter.constructor None.

(** The directory holds [fillerA]; the admission snapshot is empty; the
    compliance map excludes the request's swapper from [fillerA]. *)
Definition swapperExcluded : Providers :=
  mkProviders (Fulfilled [fillerA]) (Fulfilled [])
    (Fulfilled {[ "https://a.example/rfq" := {[ "0xswapper" ]} ]}).

Definition directoryDown : Providers :=
  mkProviders (Rejected (OtherError "directory unavailable")) (Fulfilled []) (Fulfilled ∅).

Definition admissionDown : Providers :=
  mkProviders (Fulfilled [fillerA; fillerB])
    (Rejected (OtherError "admission unavailable")) (Fulfilled ∅).

Definition provider : S3CircuitBreakerConfigurationProvider.t :=
  S3CircuitBreakerConfigurationProvider.mk
    [CircuitBreakerConfiguration.mk (Some "A") (Some "hashA") 0.5%float false]
    1000 "fade-rate-bucket" "fade-rate.json".

Definition brokenDocument : S3.Client :=
  S3.mkClient {[ ("fade-rate-bucket", "fade-rate.json") := "{oops" ]} S3.NoFault.

Definition emptyDocument : S3.Client :=
  S3.mkClient {[ ("fade-rate-bucket", "fade-rate.json") := "[]" ]} S3.NoFault.

Definition storeDown : S3.Client :=
  S3.mkClient ∅ (S3.SendFails (OtherError "ServiceUnavailable")).

(** The conversions of the handler, which the entities module defines and
    the sources do not include; the examples take bodies that already are
    a request and a response. *)
#[global] Instance handlerEntities : HandlerEntities QuoteRequest.t QuoteResponse.t := {|
  fromRequestBody body := body;
  toResponse quote := quote;
|}.

Definition quoted (id : string) (out : Z) : QuoteResponse.t :=
  QuoteResponse.mk id "0xswapper" "USDC" "WETH" 1000 out.

(** The primary post times out, the probe is answered. *)
Definition primaryTimesOut : Network RfqBody :=
  fun _ side =>
    match side with
    | Primary => timedOut
    | Opposing => ok200 (quoteBody "req-1" 150)
    end.

(** [fillerA] answers 100, every other endpoint 150. *)
Definition twoFillers : Network RfqBody :=
  fun url _ =>
    if bool_decide (url = "https://a.example/rfq")
    then ok200 (quoteBody "req-1" 100)
    else ok200 (quoteBody "req-1" 150).

(** An endpoint restricted to a chain the request is not on. *)
Definition fillerOffChain : WebhookConfiguration.t :=
  WebhookConfiguration.mk "D" "hashD" "https://d.example/rfq" None None (Some [137]).

Definition openProviders : Providers :=
  mkProviders (Fulfilled [fillerA; fillerOffChain; fillerB]) (Fulfilled []) (Fulfilled ∅).

Definition complianceDown : Providers :=
  mkProviders (Fulfilled [fillerA; fillerB]) (Fulfilled [])
    (Rejected (OtherError "compliance unavailable")).
End Scenario.

(* ===================================================================== *)
(** * Properties *)
(* ===================================================================== *)

(** ** The admission cache *)

Section AdmissionCache.
Import S3CircuitBreakerConfigurationProvider.
Context {codec : JSON}.

(** A refetch that rejects has not written any field. *)
Lemma fetchConfigurations_rejected client this e this' :
  fetchConfigurations client this = (Rejected e, this') -> this' = this.
Proof.
  unfold fetchConfigurations, bind, get, await, checkDefined, set_fillers, modify.
  destruct (S3.sendGetObject client (bucket this) (key this)) as [[body]|e0];
    [| by inversion 1].
  simpl. destruct body as [[text|e1]|]; simpl; try by inversion 1.
  destruct (JSON_parse text); simpl; by inversion 1.
Qed.

(** The three places where the refetch can fail, each giving a rejection
    when a refresh is due. *)
Lemma fetchConfigurations_send_fails client this e :
  S3.fault client = S3.SendFails e ->
  fetchConfigurations client this = (Rejected e, this).
Proof.
  intros Hf. unfold fetchConfigurations, bind, get, await, S3.sendGetObject.
  by rewrite Hf.
Qed.

Lemma fetchConfigurations_body_fails client this text e :
  S3.objects client !! (bucket this, key this) = Some text ->
  S3.fault client = S3.TransformFails e ->
  fetchConfigurations client this = (Rejected e, this).
Proof.
  intros Hobj Hf. unfold fetchConfigurations, bind, get, await, S3.sendGetObject.
  by rewrite Hf, Hobj.
Qed.

Lemma fetchConfigurations_parse_fails client this text e :
  S3.objects client !! (bucket this, key this) = Some text ->
  S3.fault client = S3.NoFault ->
  JSON_parse text = Rejected e ->
  fetchConfigurations client this = (Rejected e, this).
Proof.
  intros Hobj Hf Hp. unfold fetchConfigurations, bind, get, await, S3.sendGetObject.
  rewrite Hf, Hobj. simpl. by rewrite Hp.
Qed.

(** C10.  Error atomicity of [getConfigurations]: whenever the call
    rejects (the send, the body read or the JSON parse threw during the
    refetch), the provider is left exactly as it was, cached
    configurations and last-refresh timestamp included, so that the next
    call starts from the state the failed one started from. *)
Theorem getConfigurations_rejected_keeps_state client now now' this e this' :
  getConfigurations client now now' this = (Rejected e, this') ->
  this' = this
  /\ fillers this' = fillers this
  /\ lastUpdatedTimestamp this' = lastUpdatedTimestamp this
  /\ forall client2 t t',
       getConfigurations client2 t t' this' = getConfigurations client2 t t' this.
Proof.
  intros Hrun.
  assert (this' = this) as ->; [| done].
  revert Hrun. unfold getConfigurations at 1. unfold bind at 1. unfold get at 1.
  unfold bind at 1.
  destruct (bool_decide _ || bool_decide _).
  - unfold bind at 1.
    destruct (fetchConfigurations client this) as [[[]|e0] s] eqn:Hfetch.
    + unfold set_lastUpdatedTimestamp, modify, bind, get, ret. by inversion 1.
    + inversion 1; subst. by eapply fetchConfigurations_rejected.
  - unfold ret, bind, get. by inversion 1.
Qed.
End AdmissionCache.

(** A stale cache over a document that does not parse: the call rejects and
    the provider keeps its record and its timestamp. *)
Lemma getConfigurations_rejected_keeps_state_witness :
  let run :=
    S3CircuitBreakerConfigurationProvider.getConfigurations (codec := Scenario.json)
      Scenario.brokenDocument 400000 400050 Scenario.provider in
  run.1 = Rejected (OtherError "SyntaxError")
  /\ S3CircuitBreakerConfigurationProvider.fillers run.2
     = S3CircuitBreakerConfigurationProvider.fillers Scenario.provider
  /\ S3CircuitBreakerConfigurationProvider.lastUpdatedTimestamp run.2 = 1000.
Proof.
  intros run.
  destruct (getConfigurations_rejected_keeps_state (codec := Scenario.json)
              Scenario.brokenDocument 400000 400050 Scenario.provider
              (OtherError "SyntaxError") run.2) as (_ & Hfillers & Htime & _).
  - reflexivity.
  - split; [reflexivity |]. split; [exact Hfillers | exact Htime].
Defined.

(** ** The admission write path *)

Section AdmissionWrite.
Import S3CircuitBreakerConfigurationProvider.
Context {codec : JSON}.

Lemma buildConfig_from fillRates config :
  fold_left (fun config '(filler, rate) => config ++ [recordOf filler rate]) fillRates config
  = config ++ map (fun entry => recordOf entry.1 entry.2) fillRates.
Proof.
  revert config. induction fillRates as [|[filler rate] rest IH]; intros config; simpl.
  - by rewrite app_nil_r.
  - rewrite IH. by rewrite <- app_assoc.
Qed.

Lemma buildConfig_map fillRates :
  buildConfig fillRates = map (fun entry => recordOf entry.1 entry.2) fillRates.
Proof. unfold buildConfig. by rewrite buildConfig_from. Qed.

(** C9.  When the put goes through, the object at the provider's bucket and
    key is the serialisation of exactly one record per entry of the
    fade-rate map, in the map's order, each with the entry's name and fade
    rate and with [enabled] true exactly when the rate is strictly below
    the threshold 0.4; the object is that document whatever was stored
    before (replaced, not merged), and no other object changes. *)
Theorem putConfigurations_replaces_snapshot this fillRates client client' :
  putConfigurations this fillRates client = (Fulfilled tt, client') ->
  let config := buildConfig fillRates in
  S3.objects client' !! (bucket this, key this) = Some (JSON_stringify config)
  /\ length config = length fillRates
  /\ Forall2
       (fun entry c =>
          CircuitBreakerConfiguration.name c = Some entry.1
          /\ CircuitBreakerConfiguration.fadeRate c = entry.2
          /\ (CircuitBreakerConfiguration.enabled c = true
              <-> PrimFloat.ltb entry.2 FILL_RATE_THRESHOLD = true))
       fillRates config
  /\ S3.objects client'
     = <[(bucket this, key this) := JSON_stringify config]> (S3.objects client)
  /\ forall previous previous',
       putConfigurations this fillRates previous = (Fulfilled tt, previous') ->
       S3.objects previous' !! (bucket this, key this)
       = S3.objects client' !! (bucket this, key this).
Proof.
  intros Hput config.
  assert (forall c c', putConfigurations this fillRates c = (Fulfilled tt, c') ->
            S3.objects c'
            = <[(bucket this, key this) := JSON_stringify config]> (S3.objects c))
    as Hstore.
  { intros c c'. unfold putConfigurations, S3.sendPutObject.
    destruct (S3.fault c); inversion 1; done. }
  pose proof (Hstore _ _ Hput) as Hobjects.
  split; [by rewrite Hobjects, lookup_insert_eq |].
  split; [subst config; by rewrite buildConfig_map, length_map |].
  split.
  { subst config. rewrite buildConfig_map.
    clear. induction fillRates as [|entry rest IH]; simpl; constructor; try done. }
  split; [done |].
  intros previous previous' Hprev.
  by rewrite (Hstore _ _ Hprev), Hobjects, !lookup_insert_eq.
Qed.
End AdmissionWrite.

(** Two rates on either side of the threshold, written over an older
    document: the store ends with the new document only. *)
Lemma putConfigurations_replaces_snapshot_witness :
  let this := Scenario.provider in
  let before := S3.mkClient {[ ("fade-rate-bucket", "fade-rate.json") := "old" ]} S3.NoFault in
  let run :=
    S3CircuitBreakerConfigurationProvider.putConfigurations (codec := Scenario.json)
      this [("A", 0.5%float); ("B", 0.25%float)] before in
  run.1 = Fulfilled tt
  /\ S3.objects run.2 !! ("fade-rate-bucket", "fade-rate.json") = Some "A:off,B:on".
Proof.
  intros this before run.
  split; [reflexivity |].
  destruct (putConfigurations_replaces_snapshot (codec := Scenario.json)
              this [("A", 0.5%float); ("B", 0.25%float)] before run.2) as (Hdoc & _).
  - reflexivity.
  - exact Hdoc.
Defined.

(** ** Best-quote selection *)

Section Selection.
Import QuoteHandler.

Lemma Promise_all_fulfilled {A} (ps : list (Settled A)) (vs : list A) :
  Forall2 (fun p v => p = Fulfilled v) ps vs -> Promise_all ps = Fulfilled vs.
Proof.
  induction 1 as [|p v ps vs -> _ IH]; simpl; [done |]. by rewrite IH.
Qed.

(** One more response at the end of the array is one more call of the
    reducer. *)
Lemma reduce_snoc responses quote :
  fold_left better (responses ++ [quote]) None
  = better (fold_left better responses None) quote.
Proof. by rewrite fold_left_app. Qed.

(** The reducer's result over a whole array: nothing for the empty array,
    otherwise the first response whose [amountOut] no other one exceeds. *)
Lemma reduce_first_greatest responses :
  match fold_left better responses None with
  | None => responses = []
  | Some best =>
      exists before after,
        responses = before ++ best :: after
        /\ Forall (fun r => QuoteResponse.amountOut r < QuoteResponse.amountOut best) before
        /\ Forall (fun r => QuoteResponse.amountOut r <= QuoteResponse.amountOut best) after
  end.
Proof.
  induction responses as [|quote responses IH] using rev_ind; [done |].
  rewrite reduce_snoc.
  destruct (fold_left better responses None) as [best|]; simpl.
  - destruct IH as (before & after & -> & Hbefore & Hafter).
    destruct (Z.gtb_spec (QuoteResponse.amountOut quote) (QuoteResponse.amountOut best)) as [Hgt|Hle].
    + exists (before ++ best :: after), []. split; [done |]. split; [| done].
      apply Forall_app. split.
      * eapply Forall_impl; [exact Hbefore |]. simpl. lia.
      * constructor; [lia |]. eapply Forall_impl; [exact Hafter |]. simpl. lia.
    + exists before, (after ++ [quote]). split; [by rewrite <- app_assoc |].
      split; [done |]. apply Forall_app. split; [done |]. constructor; [lia | done].
  - subst responses. exists [], []. done.
Qed.

(** C5.  Over the responses the quoters resolved to (every one of them a
    successful quote), [getBestQuote] returns none when there are none, and
    otherwise the response with the greatest [amountOut], the first such in
    iteration order: every response before it has a strictly smaller
    [amountOut] and none after it has a greater one. *)
Theorem getBestQuote_first_greatest quoters quoteRequest responses :
  Forall2 (fun q r => q quoteRequest = Fulfilled r) quoters responses ->
  exists selected,
    getBestQuote quoters quoteRequest = Fulfilled selected
    /\ (selected = None <-> responses = [])
    /\ forall best, selected = Some best ->
         exists before after,
           responses = before ++ best :: after
           /\ Forall (fun r => QuoteResponse.amountOut r < QuoteResponse.amountOut best) before
           /\ Forall (fun r => QuoteResponse.amountOut r <= QuoteResponse.amountOut best) after.
Proof.
  intros Hall. exists (fold_left better responses None).
  split.
  - unfold getBestQuote. rewrite (Promise_all_fulfilled _ responses); [done |].
    clear -Hall. induction Hall; simpl; by constructor.
  - pose proof (reduce_first_greatest responses) as Hspec.
    destruct (fold_left better responses None) as [best|].
    + split.
      * split; [done |]. intros ->. by destruct Hspec as ([|??] & ? & ? & _).
      * intros ? [= <-]. exact Hspec.
    + split; [done | done].
Qed.
End Selection.

(** Three quoters answering 100, 150 and 150: the first 150 is selected. *)
Lemma getBestQuote_first_greatest_witness :
  let q (id : string) (out : Z) := QuoteResponse.mk id "0xswapper" "USDC" "WETH" 1000 out in
  let quoters : list QuoteHandler.Quoter :=
    [fun _ => Fulfilled (q "first" 100); fun _ => Fulfilled (q "second" 150);
     fun _ => Fulfilled (q "third" 150)] in
  QuoteHandler.getBestQuote quoters Scenario.request = Fulfilled (Some (q "second" 150))
  /\ exists selected,
       QuoteHandler.getBestQuote quoters Scenario.request = Fulfilled selected
       /\ (selected = None <-> [q "first" 100; q "second" 150; q "third" 150] = []).
Proof.
  intros q quoters. split; [reflexivity |].
  destruct (getBestQuote_first_greatest quoters Scenario.request
              [q "first" 100; q "second" 150; q "third" 150]) as (selected & Hrun & Hnone & _).
  - repeat constructor.
  - exists selected. split; [exact Hrun | exact Hnone].
Defined.

(** ** Eligibility *)

Section Eligibility.
Import WebhookQuoter.

Lemma emit_run ev (tr : Trace) : emit ev tr = (Fulfilled tt, tr ++ [ev]).
Proof. reflexivity. Qed.

(** [new Map(entries)] keeps, for each key, the last entry with that key. *)
Lemma Map_new_from `{Countable K} {V} (entries : list (K * V)) (m : gmap K V) k :
  fold_left (fun m kv => <[kv.1 := kv.2]> m) entries m !! k
  = match list_find (fun kv => kv.1 = k) (reverse entries) with
    | Some (_, kv) => Some kv.2
    | None => m !! k
    end.
Proof.
  revert m. induction entries as [|[k' v] entries IH]; intros m; [done |].
  simpl. rewrite IH, reverse_cons.
  destruct (list_find (fun kv => kv.1 = k) (reverse entries)) as [[i kv]|] eqn:Hfind.
  - by erewrite list_find_app_l.
  - rewrite list_find_app_r by done. simpl.
    destruct (decide (k' = k)) as [->|Hne]; simpl.
    + by rewrite lookup_insert_eq.
    + by rewrite lookup_insert_ne.
Qed.

(** With one entry per key, the map holds exactly the entries. *)
Lemma Map_new_lookup_unique `{Countable K} {V} (entries : list (K * V)) k v :
  NoDup entries.*1 ->
  Map_new entries !! k = Some v <-> (k, v) ∈ entries.
Proof.
  intros Hnodup. unfold Map_new. rewrite Map_new_from, lookup_empty.
  destruct (list_find _ (reverse entries)) as [[i [k' v']]|] eqn:Hfind; simpl.
  - apply list_find_Some in Hfind as (Hi & Hk & _). simpl in Hk. subst k'.
    assert ((k, v') ∈ entries) as Hin.
    { apply elem_of_reverse. by eapply list_elem_of_lookup_2. }
    split.
    + by intros [= <-].
    + intros Hin'. f_equal.
      apply list_elem_of_lookup in Hin as [a Ha], Hin' as [b Hb].
      assert (a = b) as ->.
      { eapply NoDup_lookup; [exact Hnodup | |];
          rewrite list_lookup_fmap; [by rewrite Ha | by rewrite Hb]. }
      congruence.
  - split; [done |]. intros Hin.
    apply list_find_None in Hfind. rewrite Forall_forall in Hfind.
    exfalso. apply (Hfind (k, v)); [by apply elem_of_reverse | done].
Qed.

(** The [forEach] loop pushes, in order, the endpoints that satisfy the
    condition, and logs each of them. *)
Lemma forEachEnabled_run this snapshot endpoints enabledEndpoints tr :
  forEachEnabled this snapshot endpoints enabledEndpoints tr
  = (Fulfilled (enabledEndpoints ++ List.filter (isEnabled this snapshot) endpoints),
     tr ++ map LogEndpointEnabled (List.filter (isEnabled this snapshot) endpoints)).
Proof.
  revert enabledEndpoints tr.
  induction endpoints as [|e rest IH]; intros enabledEndpoints tr; simpl.
  - by rewrite !app_nil_r.
  - destruct (isEnabled this snapshot e); simpl.
    + unfold bind. rewrite emit_run, IH. by rewrite <- !app_assoc.
    + apply IH.
Qed.

Lemma isEnabled_spec this snapshot e :
  isEnabled this snapshot e = true
  <-> WebhookConfiguration.hash e ∈ ALLOW_LIST this
      \/ (exists c, snapshot !! Some (WebhookConfiguration.hash e) = Some c
                    /\ CircuitBreakerConfiguration.enabled c = true)
      \/ snapshot !! Some (WebhookConfiguration.hash e) = None.
Proof.
  unfold isEnabled.
  destruct (snapshot !! Some (WebhookConfiguration.hash e)) as [c|] eqn:Hlook; simpl.
  - rewrite orb_false_r, orb_true_iff, bool_decide_eq_true.
    split.
    + intros [?|?]; [by left | right; left; eauto].
    + intros [?|[(c' & [= <-] & ?)|?]]; [by left | by right | done].
  - rewrite orb_true_r. split; [by right; right | done].
Qed.

(** C3.  With the admission snapshot at hand, the resolver returns the
    directory endpoints, in order, that are in the static allow-list, or
    whose hash has a record with [enabled = true] in the snapshot, or
    whose hash has no record in the snapshot; an endpoint whose record has
    [enabled = false] and which is not in the allow-list is left out.  The
    snapshot is the map the resolver builds from the configuration array;
    when the array has one record per hash it holds exactly the array's
    records. *)
Theorem getEligibleEndpoints_admission this providers endpoints config tr :
  getEndpoints providers = Fulfilled endpoints ->
  getConfigurations providers = Fulfilled config ->
  let snapshot := Map_new (map (fun c => (CircuitBreakerConfiguration.hash c, c)) config) in
  exists eligible evs,
    getEligibleEndpoints this providers tr = (Fulfilled eligible, tr ++ evs)
    /\ eligible = List.filter (isEnabled this snapshot) endpoints
    /\ (forall e,
          e ∈ eligible
          <-> e ∈ endpoints
              /\ (WebhookConfiguration.hash e ∈ ALLOW_LIST this
                  \/ (exists c, snapshot !! Some (WebhookConfiguration.hash e) = Some c
                                /\ CircuitBreakerConfiguration.enabled c = true)
                  \/ snapshot !! Some (WebhookConfiguration.hash e) = None))
    /\ (forall e c,
          snapshot !! Some (WebhookConfiguration.hash e) = Some c ->
          CircuitBreakerConfiguration.enabled c = false ->
          WebhookConfiguration.hash e ∉ ALLOW_LIST this ->
          e ∉ eligible)
    /\ (NoDup (map CircuitBreakerConfiguration.hash config) ->
        forall h c,
          snapshot !! h = Some c <-> c ∈ config /\ CircuitBreakerConfiguration.hash c = h).
Proof.
  intros Hdir Hcfg snapshot.
  assert (forall e, e ∈ List.filter (isEnabled this snapshot) endpoints
                    <-> e ∈ endpoints /\ isEnabled this snapshot e = true) as Hfilter.
  { intros e. rewrite !list_elem_of_In, filter_In. done. }
  eexists _, _. split.
  { unfold getEligibleEndpoints, bind, await, try_catch. rewrite Hdir, Hcfg.
    rewrite emit_run. fold snapshot. rewrite forEachEnabled_run. simpl.
    rewrite <- app_assoc. reflexivity. }
  split; [done |]. split; [| split].
  - intros e. by rewrite Hfilter, isEnabled_spec.
  - intros e c Hlook Hoff Hallow. rewrite Hfilter, isEnabled_spec.
    intros (_ & [?|[(c' & Hc' & Hon)|Hnone]]); [done | | congruence].
    rewrite Hlook in Hc'. injection Hc' as <-. congruence.
  - intros Hnodup h c. subst snapshot.
    rewrite Map_new_lookup_unique.
    + rewrite list_elem_of_fmap. split.
      * by intros (c' & [= -> ->] & ?).
      * intros (? & <-). by exists c.
    + by rewrite <- list_fmap_compose.
Qed.
End Eligibility.

(** The snapshot disables [fillerA] and says nothing about [fillerB]:
    only [fillerB] is eligible. *)
Lemma getEligibleEndpoints_admission_witness :
  let providers :=
    mkProviders (Fulfilled [Scenario.fillerA; Scenario.fillerB])
      (Fulfilled [CircuitBreakerConfiguration.mk (Some "A") (Some "hashA") 0.5%float false])
      (Fulfilled ∅) in
  (WebhookQuoter.getEligibleEndpoints Scenario.quoter providers []).1
  = Fulfilled [Scenario.fillerB]
  /\ exists eligible evs,
       WebhookQuoter.getEligibleEndpoints Scenario.quoter providers [] = (Fulfilled eligible, [] ++ evs)
       /\ (forall e c,
             Map_new [(Some "hashA",
                       CircuitBreakerConfiguration.mk (Some "A") (Some "hashA") 0.5%float false)]
               !! Some (WebhookConfiguration.hash e) = Some c ->
             CircuitBreakerConfiguration.enabled c = false ->
             WebhookConfiguration.hash e ∉ WebhookQuoter.ALLOW_LIST Scenario.quoter ->
             e ∉ eligible).
Proof.
  intros providers. split; [vm_compute; reflexivity |].
  destruct (getEligibleEndpoints_admission Scenario.quoter providers
              [Scenario.fillerA; Scenario.fillerB]
              [CircuitBreakerConfiguration.mk (Some "A") (Some "hashA") 0.5%float false]
              []) as (eligible & evs & Hrun & _ & _ & Hout & _).
  - reflexivity.
  - reflexivity.
  - exists eligible, evs. split; [exact Hrun | exact Hout].
Defined.

(** ** Dispatch *)

(** Running the effects of a piece of code on a trace. *)
Ltac run_exec :=
  repeat (unfold bind, ret, await, try_catch, WebhookQuoter.axios_post, WebhookQuoter.onError;
          rewrite ?emit_run; simpl).

(** Entering [fetchQuote] when the chain-id gate accepts the request. *)
Ltac pass_chain_gate Hchain :=
  unfold WebhookQuoter.fetchQuote;
  let ids := fresh "ids" in
  destruct (WebhookConfiguration.chainIds _) as [ids|] eqn:?;
  [ rewrite (bool_decide_true (_ ∈ ids)) by (by apply Hchain); simpl | ].

Section DispatchFacts.
Import WebhookQuoter.
Context {Data : Type} {entities : Entities Data}.

(** No path of [fetchQuote] lets an exception out. *)
Lemma fetchQuote_fulfils config request (net : Network Data) tr :
  exists answer evs, fetchQuote config request net tr = (Fulfilled answer, tr ++ evs).
Proof.
  unfold fetchQuote.
  destruct (match WebhookConfiguration.chainIds config with
            | Some ids => negb (bool_decide (QuoteRequest.tokenInChainId request ∈ ids))
            | None => false
            end).
  { run_exec. eauto. }
  run_exec.
  destruct (Promise_all2 _ _) as [[hookResponse opposite]|e]; run_exec.
  - repeat (match goal with |- context [if ?b then _ else _] => destruct b end; run_exec);
      rewrite <- ?app_assoc; simpl; eauto.
  - destruct e as [code st|msg]; run_exec; rewrite <- ?app_assoc; simpl; eauto.
Qed.

Lemma mapM_fetchQuote_fulfils endpoints request (net : Network Data) tr :
  exists answers evs,
    mapM (fun e => fetchQuote e request net) endpoints tr = (Fulfilled answers, tr ++ evs).
Proof.
  revert tr. induction endpoints as [|e rest IH]; intros tr; simpl.
  - exists [], []. by rewrite app_nil_r.
  - unfold bind.
    destruct (fetchQuote_fulfils e request net tr) as (answer & evs & ->).
    destruct (IH (tr ++ evs)) as (answers & evs' & ->).
    exists (answer :: answers), (evs ++ evs'). by rewrite app_assoc.
Qed.

(** The exclusion map does not reach the dispatch: [quote] behaves the same
    under any two maps. *)
Lemma quote_ignores_exclusions this directory admission exclusions exclusions'
    (net : Network Data) request tr :
  quote this (mkProviders directory admission (Fulfilled exclusions)) net request tr
  = quote this (mkProviders directory admission (Fulfilled exclusions')) net request tr.
Proof. reflexivity. Qed.

(** C4 (as amended).  When the directory resolves and the admission
    configuration fetch throws, the resolver logs the error and returns
    every directory endpoint, and [quote] fulfils for the caller as soon as
    the compliance map resolves too. *)
Theorem admission_failure_open_policy this providers (net : Network Data) request
    endpoints e tr :
  getEndpoints providers = Fulfilled endpoints ->
  getConfigurations providers = Rejected e ->
  getEligibleEndpoints this providers tr
  = (Fulfilled endpoints, tr ++ [LogErrorGettingEligibleEndpoints e])
  /\ forall exclusions,
       getEndpointToExcludedAddrsMap providers = Fulfilled exclusions ->
       exists quotes evs, quote this providers net request tr = (Fulfilled quotes, tr ++ evs).
Proof.
  intros Hdir Hcfg.
  assert (getEligibleEndpoints this providers tr
          = (Fulfilled endpoints, tr ++ [LogErrorGettingEligibleEndpoints e])) as Heligible.
  { unfold getEligibleEndpoints, bind, await, try_catch. rewrite Hdir, Hcfg.
    by rewrite emit_run. }
  split; [exact Heligible |].
  intros exclusions Hexcl. unfold quote. unfold bind at 1. rewrite Heligible.
  unfold bind at 1, await. rewrite Hexcl. unfold bind at 1. rewrite emit_run.
  unfold bind at 1.
  destruct (mapM_fetchQuote_fulfils endpoints request net
              ((tr ++ [LogErrorGettingEligibleEndpoints e]) ++ [LogFetchingQuotes endpoints]))
    as (answers & evs & ->).
  unfold ret. eexists _, _. rewrite <- !app_assoc. reflexivity.
Qed.
(** What [fetchQuote] does once the gate is passed and both posts have
    fulfilled: the classification of the primary response. *)
Lemma fetchQuote_both_fulfilled config request (net : Network Data) tr hookResponse opposite :
  chainAccepted config request ->
  result (net (WebhookConfiguration.endpoint config) Primary) = Fulfilled hookResponse ->
  result (net (WebhookConfiguration.endpoint config) Opposing) = Fulfilled opposite ->
  let parsed := fromRFQ request (data hookResponse) (QuoteRequest.type request) in
  exists evs,
    fetchQuote config request net tr
    = (Fulfilled
         (if isNonQuote request hookResponse (response parsed) then None
          else if bool_decide (is_Some (error (validation parsed))) then None
          else if negb (bool_decide (QuoteResponse.requestId (response parsed)
                                     = QuoteRequest.requestId request)) then None
          else Some (response parsed)),
       tr ++ evs)
    /\ responseTypes evs
       = [if isNonQuote request hookResponse (response parsed) then NO_QUOTE
          else if bool_decide (is_Some (error (validation parsed))) then VALIDATION_ERROR
          else if negb (bool_decide (QuoteResponse.requestId (response parsed)
                                     = QuoteRequest.requestId request))
               then REQUEST_ID_MISMATCH
          else OK].
Proof.
  intros Hchain Hp Hq parsed. pass_chain_gate Hchain.
  all: run_exec; unfold Promise_all2; rewrite Hp, Hq; run_exec; fold parsed.
  all: repeat (match goal with |- context [if ?b then _ else _] => destruct b end; run_exec).
  all: rewrite <- ?app_assoc; simpl; eexists; split; [reflexivity | reflexivity].
Qed.

(** What [fetchQuote] does once the gate is passed and one of the posts has
    rejected: no quote, and a transport classification. *)
Lemma fetchQuote_one_rejected config request (net : Network Data) tr :
  chainAccepted config request ->
  (exists e, result (net (WebhookConfiguration.endpoint config) Primary) = Rejected e)
  \/ (exists e, result (net (WebhookConfiguration.endpoint config) Opposing) = Rejected e) ->
  exists evs rt,
    fetchQuote config request net tr = (Fulfilled None, tr ++ evs)
    /\ responseTypes evs = [rt]
    /\ (rt = TIMEOUT \/ rt = HTTP_ERROR \/ rt = OTHER_ERROR).
Proof.
  intros Hchain Hrej.
  assert (exists e, Promise_all2 (net (WebhookConfiguration.endpoint config) Primary)
                      (net (WebhookConfiguration.endpoint config) Opposing) = Rejected e)
    as [e He].
  { unfold Promise_all2.
    destruct (result (net _ Primary)) as [a|e1], (result (net _ Opposing)) as [b|e2];
      try destruct (_ <? _); eauto; destruct Hrej as [[? ?]|[? ?]]; done. }
  pass_chain_gate Hchain.
  all: run_exec; rewrite He; run_exec.
  all: destruct e as [code st|msg]; run_exec; try case_bool_decide; run_exec.
  all: rewrite <- ?app_assoc; simpl; eexists _, _; split; [reflexivity |]; split;
    [reflexivity | eauto].
Qed.

(** What [fetchQuote] does when the gate refuses the chain. *)
Lemma fetchQuote_chain_refused config request (net : Network Data) tr :
  ~ chainAccepted config request ->
  fetchQuote config request net tr
  = (Fulfilled None, tr ++ [LogChainIdNotConfigured (WebhookConfiguration.endpoint config)]).
Proof.
  intros Hchain. unfold fetchQuote.
  destruct (WebhookConfiguration.chainIds config) as [ids|] eqn:Hids.
  - case_bool_decide as Hin; simpl; [| by run_exec].
    exfalso. apply Hchain. intros ids' Hids'. congruence.
  - exfalso. apply Hchain. intros ids' Hids'. congruence.
Qed.

Lemma chainAccepted_dec config request :
  chainAccepted config request \/ ~ chainAccepted config request.
Proof.
  unfold chainAccepted.
  destruct (WebhookConfiguration.chainIds config) as [ids|]; [| by left].
  destruct (decide (QuoteRequest.tokenInChainId request ∈ ids)) as [Hin|Hout].
  - left. by intros ? [= <-].
  - right. intros Hall. apply Hout. by apply Hall.
Qed.
End DispatchFacts.

(** ** Classification of responses *)

Section Classification.
Import WebhookQuoter.
Context {Data : Type} {entities : Entities Data}.

Lemma isNonQuote_true request (hookResponse : AxiosResponse Data) parsedResponse :
  isNonQuote request hookResponse parsedResponse = true
  <-> status hookResponse = 404
      \/ match QuoteRequest.type request with
         | EXACT_INPUT => QuoteResponse.amountOut parsedResponse
         | EXACT_OUTPUT => QuoteResponse.amountIn parsedResponse
         end = 0.
Proof.
  unfold isNonQuote.
  destruct (Z.eqb_spec (status hookResponse) 404) as [Hstatus|Hstatus].
  { split; [by left | done]. }
  destruct (Z.eqb_spec
              (match QuoteRequest.type request with
               | EXACT_INPUT => QuoteResponse.amountOut parsedResponse
               | EXACT_OUTPUT => QuoteResponse.amountIn parsedResponse
               end) 0) as [Hamount|Hamount].
  - split; [by right | done].
  - split; [done |]. by intros [Hs|Ha].
Qed.

Lemma transport_not_OK rt :
  rt = TIMEOUT \/ rt = HTTP_ERROR \/ rt = OTHER_ERROR ->
  (OK ∉ [rt]) /\ (VALIDATION_ERROR ∉ [rt]).
Proof. intros [-> | [-> | ->]]; split; by intros ?%list_elem_of_singleton. Qed.

(** C6 (as amended).  A primary response with HTTP status 404, or whose
    parsed amount for the relevant direction ([amountOut] for exact input,
    [amountIn] for exact output) is zero, never yields a quote and is never
    reported as VALIDATION_ERROR or OK; when the call was dispatched and
    the opposing-side probe fulfilled too, it is reported as NO_QUOTE,
    whatever the validation result, the test being made before validation
    is looked at. *)
Theorem nonQuote_reported_NO_QUOTE config request (net : Network Data) tr hookResponse :
  result (net (WebhookConfiguration.endpoint config) Primary) = Fulfilled hookResponse ->
  let parsed := fromRFQ request (data hookResponse) (QuoteRequest.type request) in
  status hookResponse = 404
  \/ match QuoteRequest.type request with
     | EXACT_INPUT => QuoteResponse.amountOut (response parsed)
     | EXACT_OUTPUT => QuoteResponse.amountIn (response parsed)
     end = 0 ->
  exists evs,
    fetchQuote config request net tr = (Fulfilled None, tr ++ evs)
    /\ (VALIDATION_ERROR ∉ responseTypes evs)
    /\ (OK ∉ responseTypes evs)
    /\ (chainAccepted config request ->
        (exists opposite,
           result (net (WebhookConfiguration.endpoint config) Opposing) = Fulfilled opposite) ->
        responseTypes evs = [NO_QUOTE]).
Proof.
  intros Hp parsed Hnon. apply isNonQuote_true in Hnon.
  destruct (chainAccepted_dec config request) as [Hchain|Hchain].
  - destruct (result (net (WebhookConfiguration.endpoint config) Opposing))
      as [opposite|e] eqn:Hq.
    + destruct (fetchQuote_both_fulfilled config request net tr _ _ Hchain Hp Hq)
        as (evs & Hrun & Htypes).
      fold parsed in Hrun, Htypes. rewrite Hnon in Hrun, Htypes.
      exists evs. rewrite Htypes.
      split; [exact Hrun |].
      split; [by intros ?%list_elem_of_singleton |].
      split; [by intros ?%list_elem_of_singleton | done].
    + destruct (fetchQuote_one_rejected config request net tr Hchain) as (evs & rt & Hrun & Htypes & Hrt).
      { right. eauto. }
      exists evs. rewrite Htypes. destruct (transport_not_OK rt Hrt).
      split; [exact Hrun |]. split; [done |]. split; [done |]. by intros _ [? ?].
  - exists [LogChainIdNotConfigured (WebhookConfiguration.endpoint config)].
    rewrite fetchQuote_chain_refused by done. simpl.
    split; [done |]. split; [apply not_elem_of_nil |]. split; [apply not_elem_of_nil | done].
Qed.

(** C7 (as amended).  A primary response whose parsed [requestId] differs
    from the request's never yields a quote and is never reported as OK;
    when the call was dispatched, the opposing-side probe fulfilled too,
    and the response is not a non-quote and passed validation, it is
    reported as REQUEST_ID_MISMATCH. *)
Theorem requestId_mismatch_reported config request (net : Network Data) tr hookResponse :
  result (net (WebhookConfiguration.endpoint config) Primary) = Fulfilled hookResponse ->
  let parsed := fromRFQ request (data hookResponse) (QuoteRequest.type request) in
  QuoteResponse.requestId (response parsed) <> QuoteRequest.requestId request ->
  exists evs,
    fetchQuote config request net tr = (Fulfilled None, tr ++ evs)
    /\ (OK ∉ responseTypes evs)
    /\ (chainAccepted config request ->
        (exists opposite,
           result (net (WebhookConfiguration.endpoint config) Opposing) = Fulfilled opposite) ->
        isNonQuote request hookResponse (response parsed) = false ->
        error (validation parsed) = None ->
        responseTypes evs = [REQUEST_ID_MISMATCH]).
Proof.
  intros Hp parsed Hid.
  destruct (chainAccepted_dec config request) as [Hchain|Hchain].
  - destruct (result (net (WebhookConfiguration.endpoint config) Opposing))
      as [opposite|e] eqn:Hq.
    + destruct (fetchQuote_both_fulfilled config request net tr _ _ Hchain Hp Hq)
        as (evs & Hrun & Htypes).
      fold parsed in Hrun, Htypes.
      rewrite (bool_decide_false _ Hid) in Hrun, Htypes. simpl in Hrun, Htypes.
      exists evs. rewrite Htypes. split; [| split].
      * rewrite Hrun. by repeat destruct (_ : bool).
      * repeat (match goal with |- context [if ?b then _ else _] => destruct b end);
          by intros ?%list_elem_of_singleton.
      * intros _ _ -> ->. done.
    + destruct (fetchQuote_one_rejected config request net tr Hchain) as (evs & rt & Hrun & Htypes & Hrt).
      { right. eauto. }
      exists evs. rewrite Htypes. destruct (transport_not_OK rt Hrt).
      split; [exact Hrun |]. split; [done |]. by intros _ [? ?].
  - exists [LogChainIdNotConfigured (WebhookConfiguration.endpoint config)].
    rewrite fetchQuote_chain_refused by done. simpl.
    split; [done |]. split; [apply not_elem_of_nil | done].
Qed.

(** C2 (as amended).  Between two runs of [fetchQuote] for the same endpoint
    and request, with the same primary reply and with the opposing-side
    probe fulfilled in both, the caller gets the same answer: the probe's
    status and body change neither whether a quote is returned nor which. *)
Theorem fetchQuote_answer_ignores_probe_response config request (net net' : Network Data) tr tr' :
  net (WebhookConfiguration.endpoint config) Primary
  = net' (WebhookConfiguration.endpoint config) Primary ->
  (exists opposite,
     result (net (WebhookConfiguration.endpoint config) Opposing) = Fulfilled opposite) ->
  (exists opposite',
     result (net' (WebhookConfiguration.endpoint config) Opposing) = Fulfilled opposite') ->
  (fetchQuote config request net tr).1 = (fetchQuote config request net' tr').1.
Proof.
  intros Hsame [opposite Hq] [opposite' Hq'].
  destruct (chainAccepted_dec config request) as [Hchain|Hchain].
  - destruct (result (net (WebhookConfiguration.endpoint config) Primary))
      as [hookResponse|e] eqn:Hp.
    + destruct (fetchQuote_both_fulfilled config request net tr _ _ Hchain Hp Hq)
        as (evs & -> & _).
      rewrite Hsame in Hp.
      destruct (fetchQuote_both_fulfilled config request net' tr' _ _ Hchain Hp Hq')
        as (evs' & -> & _).
      done.
    + destruct (fetchQuote_one_rejected config request net tr Hchain) as (evs & rt & -> & _);
        [left; eauto |].
      rewrite Hsame in Hp.
      destruct (fetchQuote_one_rejected config request net' tr' Hchain) as (evs' & rt' & -> & _);
        [left; eauto |].
      done.
  - rewrite !fetchQuote_chain_refused by done. done.
Qed.

(** A rejected probe rejects the joint await: no quote, whatever the
    primary reply. *)
Lemma fetchQuote_probe_rejected config request (net : Network Data) tr e :
  result (net (WebhookConfiguration.endpoint config) Opposing) = Rejected e ->
  (fetchQuote config request net tr).1 = Fulfilled None.
Proof.
  intros Hq.
  destruct (chainAccepted_dec config request) as [Hchain|Hchain].
  - destruct (fetchQuote_one_rejected config request net tr Hchain) as (evs & rt & -> & _);
      [right; eauto | done].
  - by rewrite fetchQuote_chain_refused.
Qed.

(** The two posts of [fetchQuote] carry the configuration built from the
    endpoint's entry. *)
Lemma fetchQuote_posts config request (net : Network Data) tr :
  chainAccepted config request ->
  exists answer evs,
    fetchQuote config request net tr = (Fulfilled answer, tr ++ evs)
    /\ posts evs
       = [(WebhookConfiguration.endpoint config, Primary, timeout (axiosConfigOf config));
          (WebhookConfiguration.endpoint config, Opposing, timeout (axiosConfigOf config))].
Proof.
  intros Hchain. unfold fetchQuote.
  remember (axiosConfigOf config) as axiosConfig eqn:Hconfig. clear Hconfig.
  destruct (WebhookConfiguration.chainIds config) as [ids|] eqn:Hids;
    [rewrite (bool_decide_true (_ ∈ ids)) by (by apply Hchain); simpl |].
  all: run_exec; destruct (Promise_all2 _ _) as [[hookResponse opposite]|e]; run_exec.
  all: repeat (match goal with |- context [if ?b then _ else _] => destruct b end; run_exec).
  all: try (destruct e as [code st|msg]; run_exec; try case_bool_decide; run_exec).
  all: rewrite <- ?app_assoc; simpl; eexists _, _; split; reflexivity.
Qed.

(** C8 (as amended).  The timeout handed to both posts is the endpoint's
    override when the override is present and not zero, and the default of
    500 ms when there is no override or the override is zero. *)
Theorem axios_timeout_override_or_default config request (net : Network Data) tr :
  let override :=
    match WebhookConfiguration.overrides config with
    | Some o => WebhookOverrides.timeout o
    | None => None
    end in
  let bound :=
    match override with
    | Some v => if v =? 0 then 500 else v
    | None => 500
    end in
  timeout (axiosConfigOf config) = bound
  /\ (chainAccepted config request ->
      exists answer evs,
        fetchQuote config request net tr = (Fulfilled answer, tr ++ evs)
        /\ posts evs
           = [(WebhookConfiguration.endpoint config, Primary, bound);
              (WebhookConfiguration.endpoint config, Opposing, bound)]).
Proof.
  intros override bound.
  assert (timeout (axiosConfigOf config) = bound) as Hbound.
  { unfold axiosConfigOf, bound, override. simpl.
    destruct (WebhookConfiguration.overrides config) as [[[v|]]|]; simpl; try done.
    by destruct (v =? 0). }
  split; [exact Hbound |].
  intros Hchain. rewrite <- Hbound. by apply fetchQuote_posts.
Qed.
End Classification.

(** ** Runs on concrete inputs *)

(** The admission fetch throws: both directory endpoints stay eligible and
    [quote] fulfils. *)
Lemma admission_failure_open_policy_witness :
  let run := WebhookQuoter.getEligibleEndpoints Scenario.quoter Scenario.admissionDown [] in
  run.1 = Fulfilled [Scenario.fillerA; Scenario.fillerB]
  /\ exists quotes evs,
       WebhookQuoter.quote Scenario.quoter Scenario.admissionDown Scenario.allQuote
         Scenario.request []
       = (Fulfilled quotes, [] ++ evs).
Proof.
  intros run.
  destruct (admission_failure_open_policy Scenario.quoter Scenario.admissionDown
              Scenario.allQuote Scenario.request [Scenario.fillerA; Scenario.fillerB]
              (OtherError "admission unavailable") []) as [Heligible Hquote].
  - reflexivity.
  - reflexivity.
  - split.
    + unfold run. by rewrite Heligible.
    + apply (Hquote ∅). reflexivity.
Defined.

(** C4 fails for the directory: when the directory fetch throws, [quote]
    rejects with that error and nothing is dispatched. *)
Lemma quote_rejects_when_directory_fails :
  WebhookQuoter.quote Scenario.quoter Scenario.directoryDown Scenario.allQuote
    Scenario.request []
  = (Rejected (OtherError "directory unavailable"), []).
Proof. reflexivity. Qed.

(** C1 fails on the code.  The compliance map excludes the request's
    swapper from [fillerA], the filter predicate rejects [fillerA], and yet
    [quote] posts to [fillerA] twice and returns its quote. *)
Theorem quote_dispatches_to_excluded_endpoint :
  let run :=
    WebhookQuoter.quote Scenario.quoter Scenario.swapperExcluded Scenario.allQuote
      Scenario.request [] in
  WebhookQuoter.notExcluded {[ "https://a.example/rfq" := {[ "0xswapper" ]} ]}
    Scenario.request Scenario.fillerA = false
  /\ posts run.2
     = [("https://a.example/rfq", Primary, 500); ("https://a.example/rfq", Opposing, 500)]
  /\ run.1 = Fulfilled [QuoteResponse.mk "req-1" "0xswapper" "USDC" "WETH" 1000 150].
Proof. vm_compute. done. Qed.

(** A 404 whose body would also fail validation, with the probe answered:
    reported as NO_QUOTE. *)
Lemma nonQuote_reported_NO_QUOTE_witness :
  let net : Network Scenario.RfqBody :=
    fun _ _ => mkReply 20 (Fulfilled (mkAxiosResponse 404 (Scenario.mkBody "req-1" "DAI" "WETH" 1000 150))) in
  exists evs,
    WebhookQuoter.fetchQuote Scenario.fillerA Scenario.request net [] = (Fulfilled None, [] ++ evs)
    /\ responseTypes evs = [NO_QUOTE].
Proof.
  intros net.
  destruct (nonQuote_reported_NO_QUOTE Scenario.fillerA Scenario.request net []
              (mkAxiosResponse 404 (Scenario.mkBody "req-1" "DAI" "WETH" 1000 150)))
    as (evs & Hrun & _ & _ & Htypes).
  - reflexivity.
  - left. reflexivity.
  - exists evs. split; [exact Hrun |]. apply Htypes.
    + intros ids Hids. discriminate Hids.
    + eexists. reflexivity.
Defined.

(** A well-formed quote for another request id, with the probe answered:
    reported as REQUEST_ID_MISMATCH. *)
Lemma requestId_mismatch_reported_witness :
  let net : Network Scenario.RfqBody := fun _ _ => Scenario.ok200 (Scenario.quoteBody "req-2" 150) in
  exists evs,
    WebhookQuoter.fetchQuote Scenario.fillerA Scenario.request net [] = (Fulfilled None, [] ++ evs)
    /\ responseTypes evs = [REQUEST_ID_MISMATCH].
Proof.
  intros net.
  destruct (requestId_mismatch_reported Scenario.fillerA Scenario.request net []
              (mkAxiosResponse 200 (Scenario.quoteBody "req-2" 150)))
    as (evs & Hrun & _ & Htypes).
  - reflexivity.
  - simpl. discriminate.
  - exists evs. split; [exact Hrun |]. apply Htypes.
    + intros ids Hids. discriminate Hids.
    + eexists. reflexivity.
    + reflexivity.
    + reflexivity.
Defined.

(** C6 fails when the probe rejects.  The primary reply is a 200 whose
    [amountOut] is zero, for an exact-input request; the probe times out,
    and the call is reported TIMEOUT, not NO_QUOTE.  The same holds for a
    primary reply with status 404. *)
Lemma nonQuote_with_probe_timeout_reported_TIMEOUT :
  let zeroAmount : Network Scenario.RfqBody :=
    fun _ side =>
      match side with
      | Primary => Scenario.ok200 (Scenario.quoteBody "req-1" 0)
      | Opposing => Scenario.timedOut
      end in
  let notFound : Network Scenario.RfqBody :=
    fun _ side =>
      match side with
      | Primary => mkReply 20 (Fulfilled (mkAxiosResponse 404 (Scenario.quoteBody "req-1" 150)))
      | Opposing => Scenario.timedOut
      end in
  QuoteRequest.type Scenario.request = EXACT_INPUT
  /\ QuoteResponse.amountOut
       (response (fromRFQ Scenario.request (Scenario.quoteBody "req-1" 0) EXACT_INPUT)) = 0
  /\ responseTypes
       (WebhookQuoter.fetchQuote Scenario.fillerA Scenario.request zeroAmount []).2 = [TIMEOUT]
  /\ responseTypes
       (WebhookQuoter.fetchQuote Scenario.fillerA Scenario.request notFound []).2 = [TIMEOUT].
Proof. vm_compute. done. Qed.

(** C7 fails when the probe rejects, and for a non-quote.  A well-formed
    quote of 150 carrying another request's id passes validation; with the
    probe timing out the call is reported TIMEOUT.  A quote of amount zero
    carrying another request's id passes validation too; with the probe
    answered the call is reported NO_QUOTE.  Neither is reported
    REQUEST_ID_MISMATCH. *)
Lemma foreign_id_not_reported_REQUEST_ID_MISMATCH :
  let probeDown : Network Scenario.RfqBody :=
    fun _ side =>
      match side with
      | Primary => Scenario.ok200 (Scenario.quoteBody "req-2" 150)
      | Opposing => Scenario.timedOut
      end in
  let zeroAmount : Network Scenario.RfqBody :=
    fun _ _ => Scenario.ok200 (Scenario.quoteBody "req-2" 0) in
  QuoteRequest.requestId Scenario.request = "req-1"
  /\ error (validation (fromRFQ Scenario.request (Scenario.quoteBody "req-2" 150) EXACT_INPUT))
     = None
  /\ responseTypes
       (WebhookQuoter.fetchQuote Scenario.fillerA Scenario.request probeDown []).2 = [TIMEOUT]
  /\ error (validation (fromRFQ Scenario.request (Scenario.quoteBody "req-2" 0) EXACT_INPUT))
     = None
  /\ responseTypes
       (WebhookQuoter.fetchQuote Scenario.fillerA Scenario.request zeroAmount []).2 = [NO_QUOTE].
Proof. vm_compute. done. Qed.

(** C2 fails on the code.  Same primary reply, a valid quote of 150; with
    the probe answered the quote is returned, with the probe timing out no
    quote is returned. *)
Lemma fetchQuote_probe_timeout_loses_quote :
  Scenario.allQuote "https://a.example/rfq" Primary
  = Scenario.probeTimesOut "https://a.example/rfq" Primary
  /\ (WebhookQuoter.fetchQuote Scenario.fillerA Scenario.request Scenario.allQuote []).1
     = Fulfilled (Some (QuoteResponse.mk "req-1" "0xswapper" "USDC" "WETH" 1000 150))
  /\ (WebhookQuoter.fetchQuote Scenario.fillerA Scenario.request Scenario.probeTimesOut []).1
     = Fulfilled None.
Proof. vm_compute. done. Qed.

(** The probe answers with a quote in one run and with a 404 in the other:
    the caller gets the same quote. *)
Lemma fetchQuote_answer_ignores_probe_response_witness :
  let probe404 : Network Scenario.RfqBody :=
    fun _ side =>
      match side with
      | Primary => Scenario.ok200 (Scenario.quoteBody "req-1" 150)
      | Opposing => mkReply 35 (Fulfilled (mkAxiosResponse 404 (Scenario.quoteBody "" 0)))
      end in
  (WebhookQuoter.fetchQuote Scenario.fillerA Scenario.request Scenario.allQuote []).1
  = (WebhookQuoter.fetchQuote Scenario.fillerA Scenario.request probe404 []).1.
Proof.
  intros probe404.
  apply (fetchQuote_answer_ignores_probe_response Scenario.fillerA Scenario.request
           Scenario.allQuote probe404 [] []).
  - reflexivity.
  - eexists. reflexivity.
  - eexists. reflexivity.
Defined.

(** C8 fails for a zero override: [fillerB] carries the override 0 and its
    posts are given 500 ms. *)
Lemma zero_override_gets_default_timeout :
  WebhookConfiguration.overrides Scenario.fillerB = Some (WebhookOverrides.mk (Some 0))
  /\ timeout (WebhookQuoter.axiosConfigOf Scenario.fillerB) = 500
  /\ timeout (WebhookQuoter.axiosConfigOf Scenario.fillerB) <> 0.
Proof. vm_compute. done. Qed.

(** An override of 1500 ms is what both posts are given. *)
Lemma axios_timeout_override_or_default_witness :
  let config :=
    WebhookConfiguration.mk "C" "hashC" "https://c.example/rfq" None
      (Some (WebhookOverrides.mk (Some 1500))) (Some [1]) in
  exists answer evs,
    WebhookQuoter.fetchQuote config Scenario.request Scenario.allQuote []
    = (Fulfilled answer, [] ++ evs)
    /\ posts evs
       = [("https://c.example/rfq", Primary, 1500); ("https://c.example/rfq", Opposing, 1500)].
Proof.
  intros config.
  destruct (axios_timeout_override_or_default config Scenario.request Scenario.allQuote [])
    as [_ Hposts].
  apply Hposts. intros ids [= <-]. set_solver.
Defined.

(* ===================================================================== *)
(** * Further properties *)
(* ===================================================================== *)

(** ** The admission cache: hits, refreshes and the write path *)

Section AdmissionCacheRuns.
Import S3CircuitBreakerConfigurationProvider.
Context {codec : JSON}.

Lemma refresh_due_test this now :
  fillers this = [] \/ now - lastUpdatedTimestamp this > UPDATE_PERIOD_MS ->
  bool_decide (length (fillers this) = 0%nat)
  || bool_decide (now - lastUpdatedTimestamp this > UPDATE_PERIOD_MS) = true.
Proof.
  intros [Hempty|Hstale].
  - by rewrite Hempty.
  - rewrite (bool_decide_true _ Hstale). apply orb_true_r.
Qed.

(** What a call does when a refresh is due and the store answers. *)
Lemma getConfigurations_due client now now' this text :
  fillers this = [] \/ now - lastUpdatedTimestamp this > UPDATE_PERIOD_MS ->
  S3.fault client = S3.NoFault ->
  S3.objects client !! (bucket this, key this) = Some text ->
  getConfigurations client now now' this
  = match JSON_parse text with
    | Fulfilled config => (Fulfilled config, mk config now' (bucket this) (key this))
    | Rejected e => (Rejected e, this)
    end.
Proof.
  intros Hdue Hfault Hobject.
  unfold getConfigurations, bind, get. rewrite (refresh_due_test _ _ Hdue).
  unfold fetchConfigurations, bind, get, await, S3.sendGetObject.
  rewrite Hfault, Hobject. simpl.
  by destruct (JSON_parse text).
Qed.

(** X1.  A cache that is not empty and not older than the refresh period is
    served as it is, state untouched and the store not consulted: the
    answer is the same whatever the client would do, and the period is
    inclusive, a cache aged exactly 300000 ms still being served. *)
Theorem getConfigurations_serves_fresh_cache client now now' this :
  fillers this <> [] ->
  now - lastUpdatedTimestamp this <= 300000 ->
  getConfigurations client now now' this = (Fulfilled (fillers this), this).
Proof.
  intros Hcached Hfresh. unfold getConfigurations, bind, get.
  rewrite bool_decide_false.
  - rewrite bool_decide_false; [done |]. unfold UPDATE_PERIOD_MS. lia.
  - destruct (fillers this); [done | simpl; lia].
Qed.

(** X2.  When a refresh is due (empty cache, or a cache older than the
    period) and the store returns the document, the call returns what
    [JSON.parse] makes of it and installs it with the post-fetch clock
    reading as the new timestamp; if the parse throws, the call rejects
    with that error. *)
Theorem getConfigurations_refreshes_when_due client now now' this text :
  fillers this = [] \/ now - lastUpdatedTimestamp this > 300000 ->
  S3.fault client = S3.NoFault ->
  S3.objects client !! (bucket this, key this) = Some text ->
  (forall config,
     JSON_parse text = Fulfilled config ->
     getConfigurations client now now' this
     = (Fulfilled config, mk config now' (bucket this) (key this)))
  /\ (forall e,
        JSON_parse text = Rejected e ->
        (getConfigurations client now now' this).1 = Rejected e).
Proof.
  intros Hdue Hfault Hobject.
  rewrite (getConfigurations_due client now now' this text Hdue Hfault Hobject).
  split; [by intros config -> | by intros e ->].
Qed.

(** X3.  A document that is the empty array never warms the cache: after a
    call that returned no configuration the provider's cache is empty, so
    the very next call goes to the store again whatever the clock says,
    and rejects if the store does. *)
Theorem empty_configuration_is_refetched client now now' this this1 client2 now2 now2' e :
  getConfigurations client now now' this = (Fulfilled [], this1) ->
  S3.fault client2 = S3.SendFails e ->
  fillers this1 = []
  /\ getConfigurations client2 now2 now2' this1 = (Rejected e, this1).
Proof.
  intros Hfirst Hfault.
  assert (fillers this1 = []) as Hempty.
  { revert Hfirst. unfold getConfigurations, bind, get.
    destruct (bool_decide _ || bool_decide _).
    - destruct (fetchConfigurations client this) as [[[]|e0] s]; [| by inversion 1].
      unfold set_lastUpdatedTimestamp, modify, ret. simpl. by intros [= Hnone <-].
    - unfold ret. by intros [= Hnone <-]. }
  split; [exact Hempty |].
  unfold getConfigurations, bind, get. rewrite refresh_due_test by (by left).
  unfold fetchConfigurations, bind, get, await, S3.sendGetObject. by rewrite Hfault.
Qed.

End AdmissionCacheRuns.

(** ** Dispatch: what [quote] sends and returns *)

Section DispatchRuns.
Import WebhookQuoter.
Context {Data : Type} {entities : Entities Data}.

Lemma chainConfigured_accepted request config :
  chainConfigured request config = true <-> chainAccepted config request.
Proof.
  unfold chainConfigured, chainAccepted.
  destruct (WebhookConfiguration.chainIds config) as [ids|].
  - rewrite bool_decide_eq_true. split; [by intros ? ? [= <-] | by intros Hall; apply Hall].
  - split; [by intros _ ? [=] | done].
Qed.

Lemma chainConfigured_refused request config :
  chainConfigured request config = false <-> ~ chainAccepted config request.
Proof.
  rewrite <- chainConfigured_accepted. by destruct (chainConfigured request config).
Qed.

(** [fetchQuote] only appends to the trace, and what it answers and appends
    does not depend on what the trace already holds. *)
Lemma fetchQuote_alone config request (net : Network Data) tr :
  fetchQuote config request net tr
  = (Fulfilled (answerAlone request net config), tr ++ eventsAlone request net config).
Proof.
  unfold answerAlone, eventsAlone, fetchQuote.
  destruct (match WebhookConfiguration.chainIds config with
            | Some ids => negb (bool_decide (QuoteRequest.tokenInChainId request ∈ ids))
            | None => false
            end); [by run_exec |].
  run_exec.
  destruct (Promise_all2 _ _) as [[hookResponse opposite]|e]; run_exec.
  - repeat (match goal with |- context [if ?b then _ else _] => destruct b end; run_exec);
      by rewrite <- ?app_assoc.
  - destruct e as [code st|msg]; run_exec; by rewrite <- ?app_assoc.
Qed.

Lemma mapM_fetchQuote_run endpoints request (net : Network Data) tr :
  mapM (fun e => fetchQuote e request net) endpoints tr
  = (Fulfilled (map (answerAlone request net) endpoints),
     tr ++ flat_map (eventsAlone request net) endpoints).
Proof.
  revert tr. induction endpoints as [|e rest IH]; intros tr; simpl.
  - by rewrite app_nil_r.
  - unfold bind. rewrite fetchQuote_alone, IH. unfold ret. by rewrite <- app_assoc.
Qed.

Lemma posts_app tr tr' : posts (tr ++ tr') = posts tr ++ posts tr'.
Proof. apply omap_app. Qed.

Lemma responseTypes_app tr tr' : responseTypes (tr ++ tr') = responseTypes tr ++ responseTypes tr'.
Proof. apply omap_app. Qed.

Lemma filter_sublist {A} (f : A -> bool) (l : list A) : sublist (List.filter f l) l.
Proof.
  induction l as [|x l IH]; simpl; [done |].
  destruct (f x); by constructor.
Qed.

Lemma posts_endpoint_logs endpoints : posts (map LogEndpointEnabled endpoints) = [].
Proof. by induction endpoints. Qed.

Lemma responseTypes_endpoint_logs endpoints :
  responseTypes (map LogEndpointEnabled endpoints) = [].
Proof. by induction endpoints. Qed.

(** The resolver never rejects once the directory has resolved, and it
    neither posts nor reports. *)
Lemma getEligibleEndpoints_resolves this providers endpoints tr :
  getEndpoints providers = Fulfilled endpoints ->
  exists eligible evs,
    getEligibleEndpoints this providers tr = (Fulfilled eligible, tr ++ evs)
    /\ sublist eligible endpoints
    /\ posts evs = []
    /\ responseTypes evs = [].
Proof.
  intros Hdir. unfold getEligibleEndpoints, bind, await, try_catch. rewrite Hdir.
  destruct (getConfigurations providers) as [config|e].
  - rewrite emit_run, forEachEnabled_run. simpl. rewrite <- app_assoc.
    eexists _, _. split; [reflexivity |]. split; [apply filter_sublist |].
    simpl. by rewrite posts_endpoint_logs, responseTypes_endpoint_logs.
  - rewrite emit_run. simpl. by eexists _, _.
Qed.

(** Dropping the nulls of a mapped array. *)
Lemma omap_id_map {A B} (f : A -> option B) (l : list A) : omap id (map f l) = omap f l.
Proof.
  induction l as [|x l IH]; simpl; [done |].
  destruct (f x); simpl; [f_equal |]; exact IH.
Qed.

(** [quote] once the resolver and the compliance provider have answered. *)
Lemma quote_run this providers (net : Network Data) request tr eligible tr1 exclusions :
  getEligibleEndpoints this providers tr = (Fulfilled eligible, tr1) ->
  getEndpointToExcludedAddrsMap providers = Fulfilled exclusions ->
  quote this providers net request tr
  = (Fulfilled (omap (answerAlone request net) eligible),
     tr1 ++ LogFetchingQuotes eligible :: flat_map (eventsAlone request net) eligible).
Proof.
  intros Heligible Hexcl. unfold quote. unfold bind at 1. rewrite Heligible.
  unfold bind at 1, await. rewrite Hexcl. unfold bind at 1. rewrite emit_run.
  unfold bind. rewrite mapM_fetchQuote_run. unfold ret.
  by rewrite <- app_assoc, omap_id_map.
Qed.

(** What one endpoint emits on its own: its two posts if the gate admits
    the request, none otherwise. *)
Lemma posts_eventsAlone request (net : Network Data) config :
  posts (eventsAlone request net config)
  = if chainConfigured request config then postsTo config else [].
Proof.
  destruct (chainConfigured request config) eqn:Hchain.
  - apply chainConfigured_accepted in Hchain.
    destruct (fetchQuote_posts config request net [] Hchain) as (answer & evs & Hrun & Hposts).
    unfold eventsAlone. by rewrite Hrun.
  - apply chainConfigured_refused in Hchain.
    unfold eventsAlone. by rewrite fetchQuote_chain_refused.
Qed.

(** A quote that an endpoint answers with is the parse of its primary
    response, which passed every stage of the classification. *)
Lemma answerAlone_Some request (net : Network Data) config quote :
  answerAlone request net config = Some quote ->
  chainAccepted config request
  /\ exists hookResponse,
       result (net (WebhookConfiguration.endpoint config) Primary) = Fulfilled hookResponse
       /\ (exists opposite,
             result (net (WebhookConfiguration.endpoint config) Opposing) = Fulfilled opposite)
       /\ quote = response (fromRFQ request (data hookResponse) (QuoteRequest.type request))
       /\ isNonQuote request hookResponse quote = false
       /\ error (validation (fromRFQ request (data hookResponse) (QuoteRequest.type request)))
          = None
       /\ QuoteResponse.requestId quote = QuoteRequest.requestId request.
Proof.
  unfold answerAlone. intros Hanswer.
  destruct (chainAccepted_dec config request) as [Hchain|Hchain];
    [| by rewrite fetchQuote_chain_refused in Hanswer].
  split; [done |].
  destruct (result (net (WebhookConfiguration.endpoint config) Primary))
    as [hookResponse|e1] eqn:Hp;
    [| destruct (fetchQuote_one_rejected config request net [] Hchain) as (? & ? & Hrun & _);
       [left; eauto | by rewrite Hrun in Hanswer]].
  destruct (result (net (WebhookConfiguration.endpoint config) Opposing))
    as [opposite|e2] eqn:Hq;
    [| destruct (fetchQuote_one_rejected config request net [] Hchain) as (? & ? & Hrun & _);
       [right; eauto | by rewrite Hrun in Hanswer]].
  destruct (fetchQuote_both_fulfilled config request net [] _ _ Hchain Hp Hq) as (evs & Hrun & _).
  rewrite Hrun in Hanswer. simpl in Hanswer.
  set (parsed := fromRFQ request (data hookResponse) (QuoteRequest.type request)) in *.
  destruct (isNonQuote request hookResponse (response parsed)) eqn:Hnon; [done |].
  destruct (error (validation parsed)) as [details|] eqn:Herr.
  { rewrite bool_decide_true in Hanswer by eauto. done. }
  rewrite bool_decide_false in Hanswer by (by intros [? ?]).
  destruct (decide (QuoteResponse.requestId (response parsed)
                    = QuoteRequest.requestId request)) as [Hid|Hid].
  - rewrite (bool_decide_true _ Hid) in Hanswer. simpl in Hanswer.
    injection Hanswer as <-.
    exists hookResponse. split; [done |]. split; [by eexists |]. done.
  - rewrite (bool_decide_false _ Hid) in Hanswer. done.
Qed.
End DispatchRuns.

Section DispatchProperties.
Import WebhookQuoter.
Context {Data : Type} {entities : Entities Data}.

Lemma omap_length_le {A B} (f : A -> option B) (l : list A) :
  (length (omap f l) <= length l)%nat.
Proof.
  induction l as [|x l IH]; simpl; [done |].
  unfold omap in IH. destruct (f x); simpl; lia.
Qed.

(** X6.  Whatever the admission provider does and whatever the endpoints
    do (errors, timeouts, malformed or mismatched responses), [quote]
    fulfils as soon as the directory and the compliance provider resolve,
    with at most one quote per directory endpoint: no endpoint failure
    reaches the caller as an exception. *)
Theorem quote_isolates_endpoint_failures this providers (net : Network Data) request
    endpoints exclusions tr :
  getEndpoints providers = Fulfilled endpoints ->
  getEndpointToExcludedAddrsMap providers = Fulfilled exclusions ->
  exists quotes evs,
    quote this providers net request tr = (Fulfilled quotes, tr ++ evs)
    /\ (length quotes <= length endpoints)%nat.
Proof.
  intros Hdir Hexcl.
  destruct (getEligibleEndpoints_resolves this providers endpoints tr Hdir)
    as (eligible & evs & Heligible & Hsub & _).
  rewrite (quote_run _ _ _ _ _ _ _ _ Heligible Hexcl).
  eexists _, _. split; [by rewrite <- app_assoc |].
  etrans; [apply omap_length_le | by apply sublist_length].
Qed.

(** X7.  When the compliance provider throws, [quote] rejects with that
    error after the resolver has run, and nothing has been posted to or
    reported for any endpoint. *)
Theorem quote_rejects_when_compliance_fails this providers (net : Network Data) request
    endpoints e tr :
  getEndpoints providers = Fulfilled endpoints ->
  getEndpointToExcludedAddrsMap providers = Rejected e ->
  exists evs,
    quote this providers net request tr = (Rejected e, tr ++ evs)
    /\ posts evs = []
    /\ responseTypes evs = [].
Proof.
  intros Hdir Hexcl.
  destruct (getEligibleEndpoints_resolves this providers endpoints tr Hdir)
    as (eligible & evs & Heligible & _ & Hposts & Htypes).
  exists evs. split; [| done].
  unfold quote. unfold bind at 1. rewrite Heligible.
  unfold bind, await. by rewrite Hexcl.
Qed.

(** X8.  Once the directory has resolved the resolver always fulfils,
    whatever the admission provider returns or throws, and what it returns
    is a sub-list of the directory in directory order: it never invents,
    duplicates or reorders endpoints, and it posts to none. *)
Theorem getEligibleEndpoints_sublist_of_directory this providers endpoints tr :
  getEndpoints providers = Fulfilled endpoints ->
  exists eligible evs,
    getEligibleEndpoints this providers tr = (Fulfilled eligible, tr ++ evs)
    /\ sublist eligible endpoints
    /\ posts evs = [].
Proof.
  intros Hdir.
  destruct (getEligibleEndpoints_resolves this providers endpoints tr Hdir)
    as (eligible & evs & Heligible & Hsub & Hposts & _).
  by exists eligible, evs.
Qed.

(** X9.  Every quote that [quote] returns carries the request's own
    [requestId] and is the parse of the primary response of a directory
    endpoint that accepts the request's chain, a response that is not a
    non-quote and that passed validation. *)
Theorem quote_results_match_request this providers (net : Network Data) request
    endpoints tr quotes tr' :
  getEndpoints providers = Fulfilled endpoints ->
  quote this providers net request tr = (Fulfilled quotes, tr') ->
  Forall
    (fun q =>
       QuoteResponse.requestId q = QuoteRequest.requestId request
       /\ exists config hookResponse,
            config ∈ endpoints
            /\ chainAccepted config request
            /\ result (net (WebhookConfiguration.endpoint config) Primary)
               = Fulfilled hookResponse
            /\ q = response (fromRFQ request (data hookResponse) (QuoteRequest.type request))
            /\ isNonQuote request hookResponse q = false
            /\ error (validation (fromRFQ request (data hookResponse)
                                    (QuoteRequest.type request))) = None)
    quotes.
Proof.
  intros Hdir Hrun.
  destruct (getEligibleEndpoints_resolves this providers endpoints tr Hdir)
    as (eligible & evs & Heligible & Hsub & _).
  destruct (getEndpointToExcludedAddrsMap providers) as [exclusions|e] eqn:Hexcl.
  - rewrite (quote_run _ _ _ _ _ _ _ _ Heligible Hexcl) in Hrun.
    injection Hrun as <- _.
    apply Forall_forall. intros q Hq.
    apply list_elem_of_omap in Hq as (config & Hin & Hanswer).
    apply answerAlone_Some in Hanswer
      as (Hchain & hookResponse & Hp & _ & Hparse & Hnon & Herr & Hid).
    split; [done |]. exists config, hookResponse.
    split; [by eapply elem_of_sublist |]. done.
  - revert Hrun. unfold quote. unfold bind at 1. rewrite Heligible.
    unfold bind, await. by rewrite Hexcl.
Qed.

(** X10.  The endpoints do not influence one another: the quotes [quote]
    returns are, in the order of the eligible endpoints, exactly the
    answers each endpoint gives when it is dispatched on its own, the
    endpoints without an answer being dropped. *)
Theorem quote_collects_endpoint_answers this providers (net : Network Data) request
    tr eligible tr1 exclusions :
  getEligibleEndpoints this providers tr = (Fulfilled eligible, tr1) ->
  getEndpointToExcludedAddrsMap providers = Fulfilled exclusions ->
  (quote this providers net request tr).1
  = Fulfilled
      (omap (fun config =>
               match (fetchQuote config request net []).1 with
               | Fulfilled answer => answer
               | Rejected _ => None
               end) eligible).
Proof.
  intros Heligible Hexcl.
  by rewrite (quote_run _ _ _ _ _ _ _ _ Heligible Hexcl).
Qed.

(** X11.  [quote] posts exactly twice, primary body then opposing body, to
    each eligible endpoint whose chain list admits the request (or that
    lists no chains), in the order of the eligible endpoints and with that
    endpoint's timeout, and posts to no other endpoint. *)
Theorem quote_posts_twice_per_dispatched_endpoint this providers (net : Network Data)
    request tr eligible evs0 exclusions :
  getEligibleEndpoints this providers tr = (Fulfilled eligible, tr ++ evs0) ->
  getEndpointToExcludedAddrsMap providers = Fulfilled exclusions ->
  exists quotes evs,
    quote this providers net request tr = (Fulfilled quotes, tr ++ evs)
    /\ posts evs
       = flat_map
           (fun config =>
              [(WebhookConfiguration.endpoint config, Primary, timeout (axiosConfigOf config));
               (WebhookConfiguration.endpoint config, Opposing, timeout (axiosConfigOf config))])
           (List.filter (chainConfigured request) eligible).
Proof.
  intros Heligible Hexcl.
  assert (posts evs0 = []) as Hresolver.
  { destruct (getEndpoints providers) as [endpoints|e] eqn:Hdir.
    - destruct (getEligibleEndpoints_resolves this providers endpoints tr Hdir)
        as (eligible' & evs' & Hrun & _ & Hposts & _).
      rewrite Hrun in Heligible. injection Heligible as _ Htr.
      by apply app_inv_head in Htr as <-.
    - revert Heligible. unfold getEligibleEndpoints, bind, await. by rewrite Hdir. }
  rewrite (quote_run _ _ _ _ _ _ _ _ Heligible Hexcl).
  eexists _, _. split; [by rewrite <- app_assoc |].
  rewrite posts_app, Hresolver. simpl.
  clear. induction eligible as [|config rest IH]; simpl; [done |].
  rewrite posts_app, posts_eventsAlone, IH.
  by destruct (chainConfigured request config).
Qed.
End DispatchProperties.

(** ** Dispatch: what one call reports *)

Section CallProperties.
Import WebhookQuoter.
Context {Data : Type} {entities : Entities Data}.

(** X12.  When the joint await of a dispatched call rejects, the call
    answers with no quote, counts one RFQ_FAIL_ERROR (globally and for the
    endpoint) and reports the error by its kind: an axios error with code
    ECONNABORTED as TIMEOUT, any other axios error as HTTP_ERROR, anything
    else as OTHER_ERROR. *)
Theorem transport_failure_classified config request (net : Network Data) tr e :
  chainAccepted config request ->
  Promise_all2 (net (WebhookConfiguration.endpoint config) Primary)
    (net (WebhookConfiguration.endpoint config) Opposing) = Rejected e ->
  exists evs,
    fetchQuote config request net tr = (Fulfilled None, tr ++ evs)
    /\ responseTypes evs
       = [match e with
          | AxiosError code _ =>
              if bool_decide (code = Some "ECONNABORTED") then TIMEOUT else HTTP_ERROR
          | OtherError _ => OTHER_ERROR
          end]
    /\ metrics evs
       = [(RFQ_REQUESTED, None); (RFQ_REQUESTED, Some (WebhookConfiguration.name config));
          (RFQ_FAIL_ERROR, None); (RFQ_FAIL_ERROR, Some (WebhookConfiguration.name config))].
Proof.
  intros Hchain He. pass_chain_gate Hchain.
  all: run_exec; rewrite He; run_exec.
  all: destruct e as [code st|msg]; run_exec.
  all: rewrite <- ?app_assoc; simpl; eexists; split; [reflexivity |]; split; reflexivity.
Qed.

(** Of two rejections the earlier one is the one reported; a single
    rejection is reported whichever post it comes from. *)
Lemma Promise_all2_rejected (p q : Reply Data) e :
  Promise_all2 p q = Rejected e ->
  (result p = Rejected e /\ (forall e', result q = Rejected e' -> settledAfterMs p <= settledAfterMs q))
  \/ (result q = Rejected e /\ (forall e', result p = Rejected e' -> settledAfterMs q < settledAfterMs p)).
Proof.
  unfold Promise_all2.
  destruct (result p) as [a|e1], (result q) as [b|e2]; try done.
  - intros [= <-]. right. split; [done | by intros ? [=]].
  - intros [= <-]. left. split; [done | by intros ? [=]].
  - destruct (Z.ltb_spec (settledAfterMs q) (settledAfterMs p)); intros [= <-].
    + right. split; [done |]. by intros ? _.
    + left. split; [done |]. by intros ? _.
Qed.

(** X13.  A primary response that is not a non-quote, passes validation
    and carries the request's id is returned to the caller and reported
    OK, with one RFQ_SUCCESS counted globally and for the endpoint; the
    opposing-side quote is logged exactly when the probe's response is
    itself neither a non-quote nor invalid. *)
Theorem valid_quote_returned config request (net : Network Data) tr hookResponse opposite :
  chainAccepted config request ->
  result (net (WebhookConfiguration.endpoint config) Primary) = Fulfilled hookResponse ->
  result (net (WebhookConfiguration.endpoint config) Opposing) = Fulfilled opposite ->
  let parsed := fromRFQ request (data hookResponse) (QuoteRequest.type request) in
  let opposingRequest := toOpposingRequest request in
  let probeParsed := fromRFQ opposingRequest (data opposite) (QuoteRequest.type opposingRequest) in
  isNonQuote request hookResponse (response parsed) = false ->
  error (validation parsed) = None ->
  QuoteResponse.requestId (response parsed) = QuoteRequest.requestId request ->
  exists evs,
    fetchQuote config request net tr = (Fulfilled (Some (response parsed)), tr ++ evs)
    /\ responseTypes evs = [OK]
    /\ metrics evs
       = [(RFQ_REQUESTED, None); (RFQ_REQUESTED, Some (WebhookConfiguration.name config));
          (RFQ_RESPONSE_TIME, None); (RFQ_RESPONSE_TIME, Some (WebhookConfiguration.name config));
          (RFQ_SUCCESS, None); (RFQ_SUCCESS, Some (WebhookConfiguration.name config))]
    /\ opposingLogs evs
       = if negb (isNonQuote opposingRequest opposite (response probeParsed))
            && negb (bool_decide (is_Some (error (validation probeParsed))))
         then [response probeParsed] else [].
Proof.
  intros Hchain Hp Hq parsed opposingRequest probeParsed Hnon Herr Hid.
  pass_chain_gate Hchain.
  all: run_exec; unfold Promise_all2; rewrite Hp, Hq; run_exec.
  all: fold parsed; rewrite Hnon, Herr; simpl.
  all: rewrite (bool_decide_true _ Hid); run_exec.
  all: fold opposingRequest; fold probeParsed.
  all: destruct (negb (isNonQuote opposingRequest opposite (response probeParsed))
                 && negb (bool_decide (is_Some (error (validation probeParsed)))));
    run_exec.
  all: rewrite <- ?app_assoc; simpl; eexists; split; [reflexivity |];
    split; [reflexivity |]; split; reflexivity.
Qed.

(** X14.  Every call reports at most once: exactly one analytics event when
    the chain gate admits the request, none (and no post) when it does
    not; and the call answers with a quote exactly when that one report is
    OK. *)
Theorem fetchQuote_reports_once config request (net : Network Data) tr :
  exists answer evs,
    fetchQuote config request net tr = (Fulfilled answer, tr ++ evs)
    /\ length (responseTypes evs) = (if chainConfigured request config then 1 else 0)%nat
    /\ (is_Some answer <-> responseTypes evs = [OK])
    /\ (chainConfigured request config = false -> posts evs = [] /\ answer = None).
Proof.
  destruct (chainConfigured request config) eqn:Hgate.
  - apply chainConfigured_accepted in Hgate.
    destruct (result (net (WebhookConfiguration.endpoint config) Primary))
      as [hookResponse|e1] eqn:Hp;
      [destruct (result (net (WebhookConfiguration.endpoint config) Opposing))
         as [opposite|e2] eqn:Hq |].
    + destruct (fetchQuote_both_fulfilled config request net tr _ _ Hgate Hp Hq)
        as (evs & Hrun & Htypes).
      eexists _, evs. split; [exact Hrun |]. rewrite Htypes.
      split; [done |]. split; [| done].
      repeat (match goal with |- context [if ?b then _ else _] => destruct b end);
        split; (done || by intros [? ?] || eauto).
    + destruct (fetchQuote_one_rejected config request net tr Hgate)
        as (evs & rt & Hrun & Htypes & Hrt); [right; eauto |].
      exists None, evs. split; [exact Hrun |]. rewrite Htypes.
      split; [done |]. split; [| done].
      split; [by intros [? ?] |]. intros [= ->]. by destruct Hrt as [?|[?|?]].
    + destruct (fetchQuote_one_rejected config request net tr Hgate)
        as (evs & rt & Hrun & Htypes & Hrt); [left; eauto |].
      exists None, evs. split; [exact Hrun |]. rewrite Htypes.
      split; [done |]. split; [| done].
      split; [by intros [? ?] |]. intros [= ->]. by destruct Hrt as [?|[?|?]].
  - apply chainConfigured_refused in Hgate.
    exists None, [LogChainIdNotConfigured (WebhookConfiguration.endpoint config)].
    rewrite fetchQuote_chain_refused by done. simpl.
    split; [done |]. split; [done |]. split; [| done].
    split; [by intros [? ?] | done].
Qed.
End CallProperties.

(** ** Eligibility with repeated hashes *)

Section RepeatedHashes.
Import WebhookQuoter.

Lemma fold_insert_lookup_other `{Countable K} {V} (entries : list (K * V)) (m : gmap K V) k :
  Forall (fun kv => kv.1 <> k) entries ->
  fold_left (fun m kv => <[kv.1 := kv.2]> m) entries m !! k = m !! k.
Proof.
  revert m. induction entries as [|[k' v] entries IH]; intros m Hother; [done |].
  apply Forall_cons in Hother as [Hne Hrest]. simpl.
  rewrite IH by done. by apply lookup_insert_ne.
Qed.

(** X15.  When several admission records share a hash, the last of them in
    the configuration array is the one that counts: an endpoint of the
    directory that is not allow-listed is eligible exactly when the last
    record with its hash has [enabled = true], whatever the earlier ones
    say. *)
Theorem last_record_for_hash_decides this providers endpoints earlier c later tr e :
  getEndpoints providers = Fulfilled endpoints ->
  getConfigurations providers = Fulfilled (earlier ++ c :: later) ->
  CircuitBreakerConfiguration.hash c = Some (WebhookConfiguration.hash e) ->
  Forall (fun c' => CircuitBreakerConfiguration.hash c' <> Some (WebhookConfiguration.hash e))
    later ->
  WebhookConfiguration.hash e ∉ ALLOW_LIST this ->
  e ∈ endpoints ->
  exists eligible evs,
    getEligibleEndpoints this providers tr = (Fulfilled eligible, tr ++ evs)
    /\ (e ∈ eligible <-> CircuitBreakerConfiguration.enabled c = true).
Proof.
  intros Hdir Hcfg Hhash Hlater Hallow Hin.
  set (snapshot :=
         Map_new (map (fun c => (CircuitBreakerConfiguration.hash c, c)) (earlier ++ c :: later))).
  assert (snapshot !! Some (WebhookConfiguration.hash e) = Some c) as Hlook.
  { unfold snapshot, Map_new. rewrite map_app, fold_left_app. simpl.
    rewrite fold_insert_lookup_other.
    - rewrite Hhash. apply lookup_insert_eq.
    - apply Forall_map. exact Hlater. }
  eexists _, _. split.
  { unfold getEligibleEndpoints, bind, await, try_catch. rewrite Hdir, Hcfg.
    rewrite emit_run. fold snapshot. rewrite forEachEnabled_run. simpl.
    rewrite <- app_assoc. reflexivity. }
  rewrite list_elem_of_In, filter_In, <- list_elem_of_In, isEnabled_spec, Hlook.
  split.
  - intros (_ & [?|[(c' & [= <-] & Hon)|?]]); done.
  - intros Hon. split; [done |]. right. left. by exists c.
Qed.
End RepeatedHashes.

(** ** The handler *)

Section Handler.
Import QuoteHandler.
Context {RequestBody ResponseBody : Type}
        {handlerEntities : HandlerEntities RequestBody ResponseBody}.

Lemma Promise_all_rejected {A} (ps : list (Settled A)) p e :
  p ∈ ps -> p = Rejected e -> exists e', Promise_all ps = Rejected e'.
Proof.
  intros Hin ->. induction ps as [|q ps IH]; [by apply elem_of_nil in Hin |].
  apply elem_of_cons in Hin as [<-|Hin]; simpl; [by eexists |].
  destruct q as [a|e0]; [| by eexists].
  destruct (IH Hin) as [e' ->]. by eexists.
Qed.

(** X16.  The handler does not isolate quoters: if any quoter rejects,
    [getBestQuote] rejects, and [handleRequest] rejects with it, producing
    neither a 200 nor the 400 "No quotes available" response and logging
    nothing, even when other quoters returned quotes. *)
Theorem rejecting_quoter_rejects_request quoters (requestBody : RequestBody) quoter e log :
  quoter ∈ quoters ->
  quoter (fromRequestBody requestBody) = Rejected e ->
  exists e',
    getBestQuote quoters (fromRequestBody requestBody) = Rejected e'
    /\ handleRequest quoters requestBody log = (Rejected e', log).
Proof.
  intros Hin Hrej.
  destruct (Promise_all_rejected
              (map (fun q => q (fromRequestBody requestBody)) quoters)
              (quoter (fromRequestBody requestBody)) e) as [e' He'].
  { apply list_elem_of_fmap. by exists quoter. }
  { done. }
  exists e'.
  assert (getBestQuote quoters (fromRequestBody requestBody) = Rejected e') as Hbest.
  { unfold getBestQuote. by rewrite He'. }
  split; [exact Hbest |].
  unfold handleRequest, bind, await. by rewrite Hbest.
Qed.

(** X17.  When every quoter fulfils, [handleRequest] answers 400 with
    detail "No quotes available" and code QUOTE_ERROR, logging nothing,
    exactly when there is no quoter; otherwise it answers 200 with the
    body of a response whose [amountOut] no other response exceeds, and
    logs two lines. *)
Theorem handleRequest_answers quoters (requestBody : RequestBody) responses log :
  Forall2 (fun q r => q (fromRequestBody requestBody) = Fulfilled r) quoters responses ->
  exists answer log',
    handleRequest quoters requestBody log = (Fulfilled answer, log ++ log')
    /\ (responses = [] ->
        answer = ErrorResponse 400 "No quotes available" "QUOTE_ERROR" /\ log' = [])
    /\ (responses <> [] ->
        exists best,
          answer = Response 200 (toResponse best)
          /\ best ∈ responses
          /\ Forall (fun r => QuoteResponse.amountOut r <= QuoteResponse.amountOut best) responses
          /\ length log' = 2%nat).
Proof.
  intros Hall.
  assert (getBestQuote quoters (fromRequestBody requestBody)
          = Fulfilled (fold_left better responses None)) as Hbest.
  { unfold getBestQuote. rewrite (Promise_all_fulfilled _ responses); [done |].
    clear -Hall. induction Hall; simpl; by constructor. }
  pose proof (reduce_first_greatest responses) as Hspec.
  unfold handleRequest, bind, await. rewrite Hbest.
  destruct (fold_left better responses None) as [best|].
  - destruct Hspec as (before & after & -> & Hbefore & Hafter).
    unfold modify, ret. simpl. rewrite <- app_assoc. simpl.
    eexists _, _. split; [reflexivity |]. split; [by destruct before |].
    intros _. exists best. split; [done |].
    split; [apply elem_of_app; right; apply elem_of_cons; by left |].
    split; [| done].
    apply Forall_app. split.
    + eapply Forall_impl; [exact Hbefore |]. simpl. lia.
    + constructor; [lia | done].
  - subst responses. unfold ret. exists (ErrorResponse 400 "No quotes available" "QUOTE_ERROR"), [].
    rewrite app_nil_r. split; [done |]. split; [done | done].
Qed.
End Handler.

(** ** Further runs on concrete inputs *)

(** A cache aged exactly one period is served although the store is down. *)
Lemma getConfigurations_serves_fresh_cache_witness :
  S3CircuitBreakerConfigurationProvider.getConfigurations (codec := Scenario.json)
    Scenario.storeDown 301000 301050 Scenario.provider
  = (Fulfilled (S3CircuitBreakerConfigurationProvider.fillers Scenario.provider),
     Scenario.provider).
Proof.
  apply (getConfigurations_serves_fresh_cache (codec := Scenario.json)
           Scenario.storeDown 301000 301050 Scenario.provider).
  - discriminate.
  - simpl. lia.
Defined.

(** A stale cache over the empty array: the empty configuration is
    installed with the new timestamp. *)
Lemma getConfigurations_refreshes_when_due_witness :
  S3CircuitBreakerConfigurationProvider.getConfigurations (codec := Scenario.json)
    Scenario.emptyDocument 400000 400050 Scenario.provider
  = (Fulfilled [],
     S3CircuitBreakerConfigurationProvider.mk [] 400050 "fade-rate-bucket" "fade-rate.json").
Proof.
  destruct (getConfigurations_refreshes_when_due (codec := Scenario.json)
              Scenario.emptyDocument 400000 400050 Scenario.provider "[]") as [Hparsed _].
  - right. simpl. lia.
  - reflexivity.
  - reflexivity.
  - apply (Hparsed []). reflexivity.
Defined.

(** After the empty array was fetched, a call one millisecond later goes to
    the store again and fails with it. *)
Lemma empty_configuration_is_refetched_witness :
  let this1 :=
    S3CircuitBreakerConfigurationProvider.mk [] 400050 "fade-rate-bucket" "fade-rate.json" in
  S3CircuitBreakerConfigurationProvider.getConfigurations (codec := Scenario.json)
    Scenario.storeDown 400051 400060 this1
  = (Rejected (OtherError "ServiceUnavailable"), this1).
Proof.
  intros this1.
  destruct (empty_configuration_is_refetched (codec := Scenario.json)
              Scenario.emptyDocument 400000 400050 Scenario.provider this1
              Scenario.storeDown 400051 400060 (OtherError "ServiceUnavailable"))
    as [_ Hnext].
  - reflexivity.
  - reflexivity.
  - exact Hnext.
Defined.


(** Three directory endpoints, the primary post of each timing out: [quote]
    fulfils, with no quote. *)
Lemma quote_isolates_endpoint_failures_witness :
  exists quotes evs,
    WebhookQuoter.quote Scenario.quoter Scenario.openProviders Scenario.primaryTimesOut
      Scenario.request []
    = (Fulfilled quotes, [] ++ evs)
    /\ (length quotes <= 3)%nat.
Proof.
  apply (quote_isolates_endpoint_failures Scenario.quoter Scenario.openProviders
           Scenario.primaryTimesOut Scenario.request
           [Scenario.fillerA; Scenario.fillerOffChain; Scenario.fillerB] ∅ []).
  - reflexivity.
  - reflexivity.
Defined.

Lemma quote_rejects_when_compliance_fails_witness :
  exists evs,
    WebhookQuoter.quote Scenario.quoter Scenario.complianceDown Scenario.allQuote
      Scenario.request []
    = (Rejected (OtherError "compliance unavailable"), [] ++ evs)
    /\ posts evs = []
    /\ responseTypes evs = [].
Proof.
  apply (quote_rejects_when_compliance_fails Scenario.quoter Scenario.complianceDown
           Scenario.allQuote Scenario.request [Scenario.fillerA; Scenario.fillerB]
           (OtherError "compliance unavailable") []).
  - reflexivity.
  - reflexivity.
Defined.

Lemma getEligibleEndpoints_sublist_of_directory_witness :
  exists eligible evs,
    WebhookQuoter.getEligibleEndpoints Scenario.quoter Scenario.admissionDown []
    = (Fulfilled eligible, [] ++ evs)
    /\ sublist eligible [Scenario.fillerA; Scenario.fillerB]
    /\ posts evs = [].
Proof.
  apply (getEligibleEndpoints_sublist_of_directory Scenario.quoter Scenario.admissionDown
           [Scenario.fillerA; Scenario.fillerB] []).
  reflexivity.
Defined.

(** [fillerA] quotes 100, [fillerB] 150, the third endpoint is on another
    chain: two quotes, both for the request. *)
Lemma quote_results_match_request_witness :
  let run :=
    WebhookQuoter.quote Scenario.quoter Scenario.openProviders Scenario.twoFillers
      Scenario.request [] in
  run.1 = Fulfilled [Scenario.quoted "req-1" 100; Scenario.quoted "req-1" 150]
  /\ Forall (fun q => QuoteResponse.requestId q = "req-1")
       [Scenario.quoted "req-1" 100; Scenario.quoted "req-1" 150].
Proof.
  intros run. split; [vm_compute; reflexivity |].
  pose proof (quote_results_match_request Scenario.quoter Scenario.openProviders
                Scenario.twoFillers Scenario.request
                [Scenario.fillerA; Scenario.fillerOffChain; Scenario.fillerB] []
                [Scenario.quoted "req-1" 100; Scenario.quoted "req-1" 150] run.2) as Hall.
  eapply Forall_impl.
  - apply Hall; [reflexivity | vm_compute; reflexivity].
  - intros q [Hid _]. exact Hid.
Defined.

Lemma quote_collects_endpoint_answers_witness :
  (WebhookQuoter.quote Scenario.quoter Scenario.openProviders Scenario.twoFillers
     Scenario.request []).1
  = Fulfilled
      (omap (fun config =>
               match (WebhookQuoter.fetchQuote config Scenario.request Scenario.twoFillers []).1 with
               | Fulfilled answer => answer
               | Rejected _ => None
               end)
         [Scenario.fillerA; Scenario.fillerOffChain; Scenario.fillerB]).
Proof.
  apply (quote_collects_endpoint_answers Scenario.quoter Scenario.openProviders
           Scenario.twoFillers Scenario.request []
           [Scenario.fillerA; Scenario.fillerOffChain; Scenario.fillerB]
           (WebhookQuoter.getEligibleEndpoints Scenario.quoter Scenario.openProviders []).2
           ∅).
  - vm_compute. reflexivity.
  - reflexivity.
Defined.

(** Two posts to [fillerA] and to [fillerB], none to the endpoint on the
    other chain; [fillerB] carries the zero override. *)
Lemma quote_posts_twice_per_dispatched_endpoint_witness :
  exists quotes evs,
    WebhookQuoter.quote Scenario.quoter Scenario.openProviders Scenario.twoFillers
      Scenario.request []
    = (Fulfilled quotes, [] ++ evs)
    /\ posts evs
       = [("https://a.example/rfq", Primary, 500); ("https://a.example/rfq", Opposing, 500);
          ("https://b.example/rfq", Primary, 500); ("https://b.example/rfq", Opposing, 500)].
Proof.
  destruct (quote_posts_twice_per_dispatched_endpoint Scenario.quoter Scenario.openProviders
              Scenario.twoFillers Scenario.request []
              [Scenario.fillerA; Scenario.fillerOffChain; Scenario.fillerB]
              (WebhookQuoter.getEligibleEndpoints Scenario.quoter Scenario.openProviders []).2
              ∅) as (quotes & evs & Hrun & Hposts).
  - vm_compute. reflexivity.
  - reflexivity.
  - exists quotes, evs. split; [exact Hrun |]. rewrite Hposts. vm_compute. reflexivity.
Defined.

(** The primary post times out while the probe is answered. *)
Lemma transport_failure_classified_witness :
  exists evs,
    WebhookQuoter.fetchQuote Scenario.fillerA Scenario.request Scenario.primaryTimesOut []
    = (Fulfilled None, [] ++ evs)
    /\ responseTypes evs = [TIMEOUT].
Proof.
  destruct (transport_failure_classified Scenario.fillerA Scenario.request
              Scenario.primaryTimesOut [] (AxiosError (Some "ECONNABORTED") None))
    as (evs & Hrun & Htypes & _).
  - intros ids Hids. discriminate Hids.
  - reflexivity.
  - exists evs. split; [exact Hrun | exact Htypes].
Defined.

(** A quote of 150 for the request, the probe answered with the same body,
    which the opposing request accepts too. *)
Lemma valid_quote_returned_witness :
  exists evs,
    WebhookQuoter.fetchQuote Scenario.fillerA Scenario.request Scenario.allQuote []
    = (Fulfilled (Some (Scenario.quoted "req-1" 150)), [] ++ evs)
    /\ responseTypes evs = [OK]
    /\ opposingLogs evs = [Scenario.quoted "req-1" 150].
Proof.
  destruct (valid_quote_returned Scenario.fillerA Scenario.request Scenario.allQuote []
              (mkAxiosResponse 200 (Scenario.quoteBody "req-1" 150))
              (mkAxiosResponse 200 (Scenario.quoteBody "req-1" 150)))
    as (evs & Hrun & Htypes & _ & Hlogs).
  - intros ids Hids. discriminate Hids.
  - reflexivity.
  - reflexivity.
  - reflexivity.
  - reflexivity.
  - reflexivity.
  - exists evs. split; [exact Hrun |]. split; [exact Htypes | exact Hlogs].
Defined.

(** An endpoint on another chain: no report, no post, no answer. *)
Lemma fetchQuote_reports_once_witness :
  exists answer evs,
    WebhookQuoter.fetchQuote Scenario.fillerOffChain Scenario.request Scenario.allQuote []
    = (Fulfilled answer, [] ++ evs)
    /\ posts evs = []
    /\ answer = None.
Proof.
  destruct (fetchQuote_reports_once Scenario.fillerOffChain Scenario.request Scenario.allQuote [])
    as (answer & evs & Hrun & _ & _ & Hrefused).
  exists answer, evs. split; [exact Hrun |]. apply Hrefused. vm_compute. reflexivity.
Defined.

(** Two records for [fillerA]'s hash, enabled then disabled: the second
    counts and [fillerA] is left out. *)
Lemma last_record_for_hash_decides_witness :
  let on := CircuitBreakerConfiguration.mk (Some "A") (Some "hashA") 0.25%float true in
  let off := CircuitBreakerConfiguration.mk (Some "A") (Some "hashA") 0.5%float false in
  let providers := mkProviders (Fulfilled [Scenario.fillerA]) (Fulfilled [on; off]) (Fulfilled ∅) in
  exists eligible evs,
    WebhookQuoter.getEligibleEndpoints Scenario.quoter providers [] = (Fulfilled eligible, [] ++ evs)
    /\ (Scenario.fillerA ∈ eligible <-> false = true).
Proof.
  intros on off providers.
  apply (last_record_for_hash_decides Scenario.quoter providers [Scenario.fillerA]
           [on] off [] [] Scenario.fillerA).
  - reflexivity.
  - reflexivity.
  - reflexivity.
  - constructor.
  - vm_compute. set_solver.
  - set_solver.
Defined.

(** One quoter returns a quote, the other throws: the request is rejected. *)
Lemma rejecting_quoter_rejects_request_witness :
  let good : QuoteHandler.Quoter := fun _ => Fulfilled (Scenario.quoted "req-1" 150) in
  let bad : QuoteHandler.Quoter := fun _ => Rejected (OtherError "quoter down") in
  exists e',
    QuoteHandler.getBestQuote [good; bad] Scenario.request = Rejected e'
    /\ handleRequest (handlerEntities := Scenario.handlerEntities) [good; bad] Scenario.request []
       = (Rejected e', []).
Proof.
  intros good bad.
  apply (rejecting_quoter_rejects_request (handlerEntities := Scenario.handlerEntities)
           [good; bad] Scenario.request bad (OtherError "quoter down") []).
  - set_solver.
  - reflexivity.
Defined.

(** Quoters answering 100 and 150: a 200 with the 150 quote. *)
Lemma handleRequest_answers_witness :
  let first : QuoteHandler.Quoter := fun _ => Fulfilled (Scenario.quoted "req-1" 100) in
  let second : QuoteHandler.Quoter := fun _ => Fulfilled (Scenario.quoted "req-1" 150) in
  (handleRequest (handlerEntities := Scenario.handlerEntities) [first; second]
     Scenario.request []).1
  = Fulfilled (Response 200 (Scenario.quoted "req-1" 150))
  /\ exists answer log',
       handleRequest (handlerEntities := Scenario.handlerEntities) [first; second]
         Scenario.request []
       = (Fulfilled answer, [] ++ log').
Proof.
  intros first second. split; [reflexivity |].
  destruct (handleRequest_answers (handlerEntities := Scenario.handlerEntities)
              [first; second] Scenario.request
              [Scenario.quoted "req-1" 100; Scenario.quoted "req-1" 150] [])
    as (answer & log' & Hrun & _).
  - repeat constructor.
  - by exists answer, log'.
Defined.
